(** * t265_avoidance: pose transform, distance profile and telemetry senders

    A shallow embedding of [scripts/t265_avoidance.py].

    Number model.  The script computes with IEEE floats (float64 in the
    pose pipeline, float32 in the OpenCV depth pipeline).  The pose
    pipeline is embedded over the real numbers [R]; the depth pipeline,
    whose results are stored in a [uint16] array, is embedded over the
    rationals [Q] and the integers [Z], with the 16-bit wrap-around
    written out.  Rounding of floating-point operations is not modelled. *)

From Stdlib Require Import Reals Lra Lia Psatz RNsatz ZArith QArith Qround Qreals.
From Stdlib Require Import List String Bool Arith.
Import ListNotations.

(** ** Exceptions *)

(** The Python exceptions the modelled code can raise. *)
Inductive exn : Type :=
  | IndexError
  | TypeError
  | LinAlgError
  | ValueError.

Inductive result (A : Type) : Type :=
  | Ok (a : A)
  | Raise (e : exn).
Arguments Ok {A} a.
Arguments Raise {A} e.

Definition bind {A B : Type} (r : result A) (k : A -> result B) : result B :=
  match r with
  | Ok a => k a
  | Raise e => Raise e
  end.

Notation "x <- r ;; k" := (bind r (fun x => k))
  (at level 61, r at next level, right associativity).

(** ** Geometry: 4x4 homogeneous matrices over the reals *)

Section Geometry.
Local Open Scope R_scope.

(** A [numpy] array of shape (4,4), row-major. *)
Record mat4 : Type := Mat4 {
  e00 : R; e01 : R; e02 : R; e03 : R;
  e10 : R; e11 : R; e12 : R; e13 : R;
  e20 : R; e21 : R; e22 : R; e23 : R;
  e30 : R; e31 : R; e32 : R; e33 : R
}.

(** [numpy.identity(4)] *)
Definition identity4 : mat4 :=
  Mat4 1 0 0 0
       0 1 0 0
       0 0 1 0
       0 0 0 1.

(** [M[i][j]] for in-range indices. *)
Definition entry (M : mat4) (i j : nat) : R :=
  match i, j with
  | 0%nat, 0%nat => e00 M | 0%nat, 1%nat => e01 M
  | 0%nat, 2%nat => e02 M | 0%nat, 3%nat => e03 M
  | 1%nat, 0%nat => e10 M | 1%nat, 1%nat => e11 M
  | 1%nat, 2%nat => e12 M | 1%nat, 3%nat => e13 M
  | 2%nat, 0%nat => e20 M | 2%nat, 1%nat => e21 M
  | 2%nat, 2%nat => e22 M | 2%nat, 3%nat => e23 M
  | 3%nat, 0%nat => e30 M | 3%nat, 1%nat => e31 M
  | 3%nat, 2%nat => e32 M | 3%nat, 3%nat => e33 M
  | _, _ => 0
  end.

(** [A.dot(B)] *)
Definition dot (A B : mat4) : mat4 :=
  let c (i j : nat) :=
    entry A i 0 * entry B 0 j + entry A i 1 * entry B 1 j +
    entry A i 2 * entry B 2 j + entry A i 3 * entry B 3 j in
  (Mat4 (c 0 0) (c 0 1) (c 0 2) (c 0 3)
       (c 1 0) (c 1 1) (c 1 2) (c 1 3)
       (c 2 0) (c 2 1) (c 2 2) (c 2 3)
       (c 3 0) (c 3 1) (c 3 2) (c 3 3))%nat.

(** The three assignments [H[0][3] = x; H[1][3] = y; H[2][3] = z]. *)
Definition set_translation (H : mat4) (x y z : R) : mat4 :=
  Mat4 (e00 H) (e01 H) (e02 H) x
       (e10 H) (e11 H) (e12 H) y
       (e20 H) (e21 H) (e22 H) z
       (e30 H) (e31 H) (e32 H) (e33 H).

Definition det3 (a b c d e f g h i : R) : R :=
  a * (e * i - f * h) - b * (d * i - f * g) + c * (d * h - e * g).

(** Index [k] of the matrix obtained by deleting index [r]. *)
Definition skip (r k : nat) : nat := if (k <? r)%nat then k else S k.

Definition minor (M : mat4) (r c : nat) : R :=
  det3 (entry M (skip r 0) (skip c 0)) (entry M (skip r 0) (skip c 1))
       (entry M (skip r 0) (skip c 2))
       (entry M (skip r 1) (skip c 0)) (entry M (skip r 1) (skip c 1))
       (entry M (skip r 1) (skip c 2))
       (entry M (skip r 2) (skip c 0)) (entry M (skip r 2) (skip c 1))
       (entry M (skip r 2) (skip c 2)).

Definition cofactor (M : mat4) (r c : nat) : R :=
  (if Nat.even (r + c) then 1 else -1) * minor M r c.

Definition det4 (M : mat4) : R :=
  entry M 0 0 * cofactor M 0 0 + entry M 0 1 * cofactor M 0 1 +
  entry M 0 2 * cofactor M 0 2 + entry M 0 3 * cofactor M 0 3.

(** The adjugate (transposed cofactor matrix) over [d]. *)
Definition adjugate_over (M : mat4) (d : R) : mat4 :=
  let a (i j : nat) := cofactor M j i / d in
  (Mat4 (a 0 0) (a 0 1) (a 0 2) (a 0 3)
        (a 1 0) (a 1 1) (a 1 2) (a 1 3)
        (a 2 0) (a 2 1) (a 2 2) (a 2 3)
        (a 3 0) (a 3 1) (a 3 2) (a 3 3))%nat.

(** [numpy.linalg.inv]: the inverse of a square matrix, [LinAlgError] when
    the matrix is singular.  The value is the adjugate over the
    determinant. *)
Definition inv (M : mat4) : result mat4 :=
  let d := det4 M in
  if Req_dec_T d 0 then Raise LinAlgError else Ok (adjugate_over M d).

(** [_EPS = numpy.finfo(float).eps * 4.0] of [transformations.py]. *)
Definition _EPS : R := 4 / 2 ^ 52.

(** A quaternion [w + ix + jy + kz] as the list [[w, x, y, z]]. *)
Record quaternion : Type := Quat { qw : R; qx : R; qy : R; qz : R }.

(** [transformations.quaternion_matrix]: the homogeneous rotation matrix of
    a quaternion.  The quaternion is rescaled by [sqrt(2/n)], [n] its squared
    norm, and the entries are read off the outer product [numpy.outer(q, q)]. *)
Definition quaternion_matrix (q : quaternion) : mat4 :=
  let n := qw q * qw q + qx q * qx q + qy q * qy q + qz q * qz q in
  if Rlt_dec n _EPS then identity4
  else
    let s := sqrt (2 / n) in
    let q0 := qw q * s in
    let q1 := qx q * s in
    let q2 := qy q * s in
    let q3 := qz q * s in
    Mat4 (1 - q2 * q2 - q3 * q3) (q1 * q2 - q3 * q0) (q1 * q3 + q2 * q0) 0
         (q1 * q2 + q3 * q0) (1 - q1 * q1 - q3 * q3) (q2 * q3 - q1 * q0) 0
         (q1 * q3 - q2 * q0) (q2 * q3 + q1 * q0) (1 - q1 * q1 - q2 * q2) 0
         0 0 0 1.

(** [transformations.euler_matrix(ai, aj, ak, 'sxyz')]: static frame, axis
    order x, y, z (first axis 0, parity 0, no repetition). *)
Definition euler_matrix (ai aj ak : R) : mat4 :=
  let si := sin ai in let sj := sin aj in let sk := sin ak in
  let ci := cos ai in let cj := cos aj in let ck := cos ak in
  let cc := ci * ck in let cs := ci * sk in
  let sc := si * ck in let ss := si * sk in
  Mat4 (cj * ck) (sj * sc - cs) (sj * cc + ss) 0
       (cj * sk) (sj * ss + cc) (sj * cs - sc) 0
       (- sj)    (cj * si)      (cj * ci)      0
       0 0 0 1.

(** The 3x3 rotation block of a homogeneous transform, as a [mat4] with
    zero translation. *)
Definition rotation_block (H : mat4) : mat4 :=
  Mat4 (e00 H) (e01 H) (e02 H) 0
       (e10 H) (e11 H) (e12 H) 0
       (e20 H) (e21 H) (e22 H) 0
       0 0 0 1.

Definition transpose (M : mat4) : mat4 :=
  Mat4 (e00 M) (e10 M) (e20 M) (e30 M)
       (e01 M) (e11 M) (e21 M) (e31 M)
       (e02 M) (e12 M) (e22 M) (e32 M)
       (e03 M) (e13 M) (e23 M) (e33 M).

(** Determinant of the 3x3 rotation block. *)
Definition det_rot (H : mat4) : R :=
  det3 (e00 H) (e01 H) (e02 H)
       (e10 H) (e11 H) (e12 H)
       (e20 H) (e21 H) (e22 H).

(** Translation part [(H[0][3], H[1][3], H[2][3])] and its Euclidean norm. *)
Definition translation (H : mat4) : R * R * R := (e03 H, e13 H, e23 H).

Definition norm3 (v : R * R * R) : R :=
  let '(x, y, z) := v in sqrt (x * x + y * y + z * z).

(** A rigid transform: orthonormal rotation block of determinant one and
    homogeneous last row. *)
Definition rigid (H : mat4) : Prop :=
  dot (rotation_block H) (transpose (rotation_block H)) = identity4 /\
  det_rot H = 1 /\
  (e30 H = 0 /\ e31 H = 0 /\ e32 H = 0 /\ e33 H = 1).

End Geometry.

(** [math.atan2(y, x)] and [transformations.euler_from_matrix(M, 'sxyz')],
    used by the pose report. *)
Section Euler.
Local Open Scope R_scope.

Definition atan2 (y x : R) : R :=
  if Rlt_dec 0 x then atan (y / x)
  else if Rlt_dec x 0 then
    (if Rle_dec 0 y then atan (y / x) + PI else atan (y / x) - PI)
  else if Rlt_dec 0 y then PI / 2
  else if Rlt_dec y 0 then - (PI / 2)
  else 0.

Definition euler_from_matrix (M : mat4) : R * R * R :=
  let cy := sqrt (e00 M * e00 M + e10 M * e10 M) in
  if Rlt_dec _EPS cy then
    (atan2 (e21 M) (e22 M), atan2 (- e20 M) cy, atan2 (e10 M) (e00 M))
  else
    (atan2 (- e12 M) (e11 M), atan2 (- e20 M) cy, 0).

End Euler.

(** ** Configuration and mount orientation *)

(** The module-level constants of the script that gate the pose
    corrections, and the parsed command-line options the model uses. *)
Record config : Type := Config {
  body_offset_enabled : Z;
  body_offset_x : R;
  body_offset_y : R;
  body_offset_z : R;
  compass_enabled : Z;
  scale_calib_enable : bool;
  camera_orientation_arg : option Z
}.

(** The values written in the script, for given command-line options. *)
Definition source_config (calib : bool) (orientation : option Z) : config :=
  Config 0 (5 / 100)%R 0%R 0%R 0 calib orientation.

Definition camera_orientation_default : Z := 0.

(** [if not camera_orientation: camera_orientation = camera_orientation_default] *)
Definition camera_orientation (cfg : config) : Z :=
  match camera_orientation_arg cfg with
  | None => camera_orientation_default
  | Some 0%Z => camera_orientation_default
  | Some o => o
  end.

(** The two fixed transforms chosen by the mount orientation. *)
Record mount : Type := Mount {
  H_aeroRef_T265Ref : mat4;
  H_T265body_aeroBody : mat4
}.

Definition forward_ref : mat4 :=
  Mat4 0 0 (-1) 0
       1 0 0 0
       0 (-1) 0 0
       0 0 0 1.

Definition downward_body : mat4 :=
  Mat4 0 1 0 0
       1 0 0 0
       0 0 (-1) 0
       0 0 0 1.

(** Lines 216-227: the [if camera_orientation == 0 / elif == 1 / else]
    selection; the first and the last branch are the same. *)
Definition mount_transforms (o : Z) : result mount :=
  if (o =? 0)%Z then
    (b <- inv forward_ref ;; Ok (Mount forward_ref b))
  else if (o =? 1)%Z then
    Ok (Mount forward_ref downward_body)
  else
    (b <- inv forward_ref ;; Ok (Mount forward_ref b)).

(** ** Pose samples and shared state *)

Record pose_data : Type := PoseData {
  translation_x : R;
  translation_y : R;
  translation_z : R;
  rotation : quaternion;
  tracker_confidence : nat
}.

(** The globals shared between the acquisition loop, the scheduler jobs and
    the message listeners. *)
Record state : Type := State {
  scale_factor : R;
  current_time : Z;
  distances : list Z;
  data : option pose_data;
  current_confidence : option nat;
  H_aeroRef_aeroBody : option mat4;
  heading_north_yaw : option R;
  scale_thread_alive : bool
}.

(** [distances = np.zeros((72,), dtype=np.uint16)] and the assignments of
    lines 79 and 498-501. *)
Definition initial_state (cfg : config) : state :=
  State 1%R 0 (repeat 0%Z 72) None None None None (scale_calib_enable cfg).

Definition set_scale_factor (s : R) (st : state) : state :=
  State s (current_time st) (distances st) (data st) (current_confidence st)
        (H_aeroRef_aeroBody st) (heading_north_yaw st) (scale_thread_alive st).

Definition set_distances (d : list Z) (st : state) : state :=
  State (scale_factor st) (current_time st) d (data st) (current_confidence st)
        (H_aeroRef_aeroBody st) (heading_north_yaw st) (scale_thread_alive st).

Definition set_current_confidence (c : option nat) (st : state) : state :=
  State (scale_factor st) (current_time st) (distances st) (data st) c
        (H_aeroRef_aeroBody st) (heading_north_yaw st) (scale_thread_alive st).

Definition set_heading_north_yaw (y : option R) (st : state) : state :=
  State (scale_factor st) (current_time st) (distances st) (data st)
        (current_confidence st) (H_aeroRef_aeroBody st) y (scale_thread_alive st).

Definition set_scale_thread_alive (b : bool) (st : state) : state :=
  State (scale_factor st) (current_time st) (distances st) (data st)
        (current_confidence st) (H_aeroRef_aeroBody st) (heading_north_yaw st) b.

Definition set_pose (now : Z) (d : pose_data) (H : mat4) (st : state) : state :=
  State (scale_factor st) now (distances st) (Some d) (current_confidence st)
        (Some H) (heading_north_yaw st) (scale_thread_alive st).

(** ** MAVLink messages and terminal output *)

(** The messages built through [vehicle.message_factory], with the fields in
    the order of the [*_encode] calls. *)
Inductive mavlink_msg : Type :=
  | vision_position_estimate (usec : Z) (x y z roll pitch yaw : R)
  | vision_position_delta (time_usec time_delta_usec : Z)
      (angle_delta position_delta : list Z) (confidence : Q)
  | statustext (severity : Z) (text : string)
  | distance_sensor (time_boot_ms min_distance max_distance current_distance
      sensor_type id orientation covariance : Z)
  | obstacle_distance (time_usec sensor_type : Z) (dists : list Z)
      (increment min_distance max_distance : Z) (increment_f angle_offset : Q).

Inductive output : Type :=
  | Send (m : mavlink_msg)
  | Log_confidence (level : string)
  | Log_first_attitude (degrees : R)
  | Log_attitude (degrees : R)
  | Log_new_scale (s : R)
  | Job_error (e : exn).

(** [pose_data_confidence_level = ('Failed', 'Low', 'Medium', 'High')] *)
Definition pose_data_confidence_level : list string :=
  ["Failed"; "Low"; "Medium"; "High"]%string.

(** Tuple indexing with a non-negative index. *)
Definition index {A : Type} (l : list A) (i : nat) : result A :=
  match nth_error l i with
  | Some a => Ok a
  | None => Raise IndexError
  end.

(** The slice [l[a:b]] for [0 <= a <= b]. *)
Definition slice {A : Type} (a b : nat) (l : list A) : list A :=
  firstn (b - a) (skipn a l).

Definition sum_Z (l : list Z) : Z := fold_right Z.add 0%Z l.

(** [int(np.mean(l))]: the mean is evaluated in float64 and truncated toward
    zero.  The mean of an empty array is [nan], on which [int] raises
    [ValueError].  For a sum of sixteen-bit entries over a handful of
    elements the float64 quotient truncates to the integer quotient. *)
Definition int_mean (l : list Z) : result Z :=
  match l with
  | [] => Raise ValueError
  | _ => Ok (Z.quot (sum_Z l) (Z.of_nat (List.length l)))
  end.

(** ** Periodic senders *)

(** Each sender maps the shared state to the new state and the list of
    outputs it produced, or raises. *)
Definition job : Type := state -> result (state * list output).

(** [send_obstacle_distance_message] (defined, but its scheduler job is
    commented out). *)
Definition send_obstacle_distance_message : job := fun st =>
  Ok (st, [Send (obstacle_distance (current_time st) 0 (distances st)
                   0 5 65 (5 # 4) (- (45 # 1)))]).

(** [send_distance_sensor_message] *)
Definition send_distance_sensor_message : job := fun st =>
  curr_dist <- int_mean (slice 33 38 (distances st)) ;;
  Ok (st, [Send (distance_sensor 0 10 65 curr_dist 0 0 0 0)]).

(** [send_vision_position_message] *)
Definition send_vision_position_message : job := fun st =>
  match H_aeroRef_aeroBody st with
  | Some H =>
      let '(roll, pitch, yaw) := euler_from_matrix H in
      Ok (st, [Send (vision_position_estimate (current_time st)
                       (e03 H) (e13 H) (e23 H) roll pitch yaw)])
  | None => Ok (st, [])
  end.

(** [send_confidence_level_dummy_message] *)
Definition send_confidence_level_dummy_message : job := fun st =>
  match data st with
  | Some d =>
      let c := tracker_confidence d in
      level <- index pose_data_confidence_level c ;;
      let numeric :=
        [Log_confidence level;
         Send (vision_position_delta 0 0 [0; 0; 0]%Z [0; 0; 0]%Z
                 (inject_Z (Z.of_nat c * 100) / 3)%Q)] in
      let changed :=
        match current_confidence st with
        | None => true
        | Some c' => negb (Nat.eqb c' c)
        end in
      if changed then
        Ok (set_current_confidence (Some c) st,
            numeric ++
            [Send (statustext 3 ("Tracking confidence: " ++ level)%string)])
      else Ok (st, numeric)
  | None => Ok (st, [])
  end.

(** Nominal angle, in degrees, of entry [i] of the distance array carried by
    an obstacle-distance message: [angle_offset + i * increment_f]. *)
Definition sector_angle (m : mavlink_msg) (i : nat) : option Q :=
  match m with
  | obstacle_distance _ _ _ _ _ _ increment_f angle_offset =>
      Some (angle_offset + inject_Z (Z.of_nat i) * increment_f)%Q
  | _ => None
  end.

(** ** Listeners and the operator input thread *)

Definition degrees (rad : R) : R := (rad * 180 / PI)%R.

(** [att_msg_callback]: both branches store the yaw of the message. *)
Definition att_msg_callback (value_yaw : R) (st : state) : state * list output :=
  match heading_north_yaw st with
  | None =>
      let st' := set_heading_north_yaw (Some value_yaw) st in
      (st', [Log_first_attitude (degrees value_yaw)])
  | Some _ =>
      let st' := set_heading_north_yaw (Some value_yaw) st in
      (st', [Log_attitude (degrees value_yaw)])
  end.

(** One iteration of the [while True] loop of [scale_update]: the line typed
    by the operator, already parsed by [float]; [None] is a line that
    [float] rejects with [ValueError]. *)
Definition scale_update (line : option R) (st : state) : result (state * list output) :=
  match line with
  | Some s => Ok (set_scale_factor s st, [Log_new_scale s])
  | None => Raise ValueError
  end.

(** ** Stereo depth: from disparity to the distance array *)

Section Depth.
Local Open Scope Q_scope.

(** Lines 528-532 and 581-596.  [stereo_focal_px] is
    [stereo_height_px/2 / tan(stereo_fov_rad/2)] with [tan(pi/4) = 1]. *)
Definition min_disp : Z := 16.
Definition num_disp : Z := 112 - min_disp.
Definition max_disp : Z := min_disp + num_disp.
Definition stereo_height_px : Z := 300.
Definition stereo_focal_px : Q := inject_Z stereo_height_px / 2 / 1.
Definition stereo_width_px : Z := stereo_height_px + max_disp.
Definition stereo_cx : Q := (inject_Z stereo_height_px - 1) / 2 + inject_Z max_disp.
Definition stereo_cy : Q := (inject_Z stereo_height_px - 1) / 2.

(** A float of the depth pipeline: a finite value, or an infinity or NaN. *)
Inductive fval : Type :=
  | Fin (q : Q)
  | NonFinite.

(** Float division of two finite values. *)
Definition fdiv (a b : Q) : fval :=
  if Qeq_bool b 0 then NonFinite else Fin (a / b).

Definition qrow : Type := Q * Q * Q * Q.
Definition Qmat : Type := qrow * qrow * qrow * qrow.

(** The reprojection matrix [Q] of line 609, for the baseline [T[0]].  A
    zero baseline makes the entry [-1/T[0]] infinite; that matrix is not
    represented. *)
Definition Q_matrix (T0 : Q) : option Qmat :=
  if Qeq_bool T0 0 then None
  else Some ((1, 0, 0, - (stereo_cx - inject_Z max_disp)),
             (0, 1, 0, - stereo_cy),
             (0, 0, 0, stereo_focal_px),
             (0, 0, - 1 / T0, 0)).

Definition row_dot (r : qrow) (x y d w : Q) : Q :=
  let '(a, b, c, e) := r in a * x + b * y + c * d + e * w.

Definition point : Type := fval * fval * fval.

(** One pixel of [cv2.reprojectImageTo3D]:
    [[X Y Z W] = Q [x y disparity(x,y) 1]], result [(X/W, Y/W, Z/W)]. *)
Definition reproject_pixel (Qm : Qmat) (x y : nat) (d : Q) : point :=
  let '(r0, r1, r2, r3) := Qm in
  let xq := inject_Z (Z.of_nat x) in
  let yq := inject_Z (Z.of_nat y) in
  let W := row_dot r3 xq yq d 1 in
  (fdiv (row_dot r0 xq yq d 1) W,
   fdiv (row_dot r1 xq yq d 1) W,
   fdiv (row_dot r2 xq yq d 1) W).

Fixpoint mapi_from {A B : Type} (f : nat -> A -> B) (k : nat) (l : list A) : list B :=
  match l with
  | [] => []
  | a :: l' => f k a :: mapi_from f (S k) l'
  end.

(** [cv2.reprojectImageTo3D(disparity, Q)]: the image is indexed
    [[row][column]], the pixel coordinates are [x = column], [y = row].  On
    an image without rows or without columns (an empty matrix) the binding
    returns [None]. *)
Definition reprojectImageTo3D (disparity : list (list Q)) (Qm : Qmat)
  : option (list (list point)) :=
  match disparity with
  | [] => None
  | [] :: _ => None
  | _ =>
      Some (mapi_from
              (fun y row => mapi_from (fun x d => reproject_pixel Qm x y d) 0 row)
              0 disparity)
  end.

(** [stereo.compute(...).astype(np.float32) / 16.0] on the matcher's
    fixed-point output, then the crop [disparity[:, max_disp:]]. *)
Definition to_pixel_disparity (raw : list (list Z)) : list (list Q) :=
  map (map (fun v => inject_Z v / 16)) raw.

Definition crop_valid (disparity : list (list Q)) : list (list Q) :=
  map (skipn (Z.to_nat max_disp)) disparity.

(** The integer part of [np.linalg.norm(p) * 100] in exact arithmetic: the
    floor of [100 * sqrt s] is the integer square root of the floor of
    [10000 * s].  The script evaluates the norm and the product in float32;
    where the exact value lies within the rounding error of an integer the
    stored entry can differ from this one by one unit. *)
Definition floor_norm_cm (p : point) : option Z :=
  match p with
  | (Fin x, Fin y, Fin z) => Some (Z.sqrt (Qfloor (10000 * (x * x + y * y + z * z))))
  | _ => None
  end.

(** Storing a float into a [uint16] array: the integer part, reduced modulo
    [2^16].  The conversion of an infinity or NaN is left to the platform;
    [nonfinite_as_int] is the integer it produces. *)
Definition astype_uint16 (nonfinite_as_int : Z) (v : option Z) : Z :=
  match v with
  | Some n => n mod 65536
  | None => nonfinite_as_int mod 65536
  end%Z.

(** The assignment [l[i] = v] to a [numpy] array. *)
Fixpoint setitem {A : Type} (l : list A) (i : nat) (v : A) : result (list A) :=
  match l, i with
  | [], _ => Raise IndexError
  | _ :: l', O => Ok (v :: l')
  | a :: l', S i' => l'' <- setitem l' i' v ;; Ok (a :: l'')
  end.

(** [points_3D[r, c, :]] *)
Definition index2 {A : Type} (img : list (list A)) (r c : nat) : result A :=
  row <- index img r ;; index row c.

(** Lines 697-698, for the indices [todo] still to be visited:
    [distances[i] = np.linalg.norm(points_3D[i * 4, 150, :]) * 100]. *)
Fixpoint sample_distances (nonfinite_as_int : Z) (points_3D : list (list point))
    (todo : list nat) (dists : list Z) : result (list Z) :=
  match todo with
  | [] => Ok dists
  | i :: rest =>
      p <- index2 points_3D (i * 4) 150 ;;
      dists' <- setitem dists i (astype_uint16 nonfinite_as_int (floor_norm_cm p)) ;;
      sample_distances nonfinite_as_int points_3D rest dists'
  end.

(** Lines 687-698: from the matcher's output to the new distance array.
    When [points_3D] is [None] the first subscript [points_3D[0, 150, :]]
    raises [TypeError]. *)
Definition estimate (nonfinite_as_int : Z) (Qm : Qmat) (raw : list (list Z))
    (dists : list Z) : result (list Z) :=
  let disparity := crop_valid (to_pixel_disparity raw) in
  match reprojectImageTo3D disparity Qm with
  | Some points_3D => sample_distances nonfinite_as_int points_3D (seq 0 72) dists
  | None => Raise TypeError
  end.

End Depth.

(** ** Acquisition loop *)

Section Acquisition.
Local Open Scope R_scope.

(** Lines 636-658: the pose branch of the loop body. *)
Definition process_pose (cfg : config) (mnt : mount) (now : Z) (d : pose_data)
    (st : state) : result state :=
  let q := rotation d in
  let H_T265Ref_T265body :=
    set_translation (quaternion_matrix (Quat (qw q) (qx q) (qy q) (qz q)))
      (translation_x d * scale_factor st)
      (translation_y d * scale_factor st)
      (translation_z d * scale_factor st) in
  let H := dot (H_aeroRef_T265Ref mnt)
               (dot H_T265Ref_T265body (H_T265body_aeroBody mnt)) in
  H <- (if (body_offset_enabled cfg =? 1)%Z then
          let H_body_camera :=
            set_translation (euler_matrix 0 0 0)
              (body_offset_x cfg) (body_offset_y cfg) (body_offset_z cfg) in
          H_camera_body <- inv H_body_camera ;;
          Ok (dot H_body_camera (dot H H_camera_body))
        else Ok H) ;;
  H <- (if (compass_enabled cfg =? 1)%Z then
          match heading_north_yaw st with
          | Some yaw => Ok (dot H (euler_matrix 0 0 yaw))
          | None => Raise TypeError
          end
        else Ok H) ;;
  Ok (set_pose now d H st).

(** One iteration of the [while True] loop: the optional pose frame, then
    the stereo pair, already matched into the raw disparity [raw]. *)
Definition process_frames (cfg : config) (mnt : mount) (Qm : Qmat)
    (nonfinite_as_int : Z) (now : Z) (pose : option pose_data)
    (raw : list (list Z)) (st : state) : result state :=
  st <- match pose with
        | Some d => process_pose cfg mnt now d st
        | None => Ok st
        end ;;
  dists <- estimate nonfinite_as_int Qm raw (distances st) ;;
  Ok (set_distances dists st).

End Acquisition.

(** ** The system as a transition system *)

Inductive event : Type :=
  | Vision_tick
  | Confidence_tick
  | Distance_tick
  | Attitude (yaw : R)
  | Operator_line (line : option R)
  | Frames (now : Z) (pose : option pose_data) (raw : list (list Z)).

(** A scheduler job: an exception is caught and logged by the scheduler. *)
Definition run_job (j : job) (st : state) : state * list output :=
  match j st with
  | Ok r => r
  | Raise e => (st, [Job_error e])
  end.

Section System.
Variable cfg : config.
Variable mnt : mount.
Variable Qm : Qmat.
Variable nonfinite_as_int : Z.

(** One event.  [Raise] is an exception in the acquisition loop, which ends
    the process.  The ATTITUDE listener is registered only when the compass
    is enabled; the operator thread runs only when scale calibration is
    enabled and ends at the first line [float] rejects. *)
Definition step (ev : event) (st : state) : result (state * list output) :=
  match ev with
  | Vision_tick => Ok (run_job send_vision_position_message st)
  | Confidence_tick => Ok (run_job send_confidence_level_dummy_message st)
  | Distance_tick => Ok (run_job send_distance_sensor_message st)
  | Attitude yaw =>
      if (compass_enabled cfg =? 1)%Z then Ok (att_msg_callback yaw st)
      else Ok (st, [])
  | Operator_line line =>
      if scale_thread_alive st then
        match scale_update line st with
        | Ok r => Ok r
        | Raise _ => Ok (set_scale_thread_alive false st, [])
        end
      else Ok (st, [])
  | Frames now pose raw =>
      st' <- process_frames cfg mnt Qm nonfinite_as_int now pose raw st ;;
      Ok (st', [])
  end.

Fixpoint run (evs : list event) (st : state) : result (state * list output) :=
  match evs with
  | [] => Ok (st, [])
  | ev :: evs' =>
      r <- step ev st ;;
      r' <- run evs' (fst r) ;;
      Ok (fst r', snd r ++ snd r')
  end.

(** States the running system can be in. *)
Inductive reachable : state -> Prop :=
  | reachable_init : reachable (initial_state cfg)
  | reachable_step ev st st' out :
      reachable st -> step ev st = Ok (st', out) -> reachable st'.

End System.

(** Number of text status notifications in an output trace. *)
Definition is_statustext (o : output) : bool :=
  match o with
  | Send (statustext _ _) => true
  | _ => false
  end.

Definition count_statustext (out : list output) : nat :=
  List.length (filter is_statustext out).

Definition sends (out : list output) : list mavlink_msg :=
  flat_map (fun o => match o with Send m => [m] | _ => [] end) out.

(** ** Definitions used to state the properties *)

Section Statements.
Local Open Scope R_scope.

(** Last row [0 0 0 1]. *)
Definition homogeneous (H : mat4) : Prop :=
  e30 H = 0 /\ e31 H = 0 /\ e32 H = 0 /\ e33 H = 1.

(** Last column [0 0 0 1]. *)
Definition zero_translation (B : mat4) : Prop :=
  e03 B = 0 /\ e13 B = 0 /\ e23 B = 0 /\ e33 B = 1.

Definition unit_quaternion (q : quaternion) : Prop :=
  qw q * qw q + qx q * qx q + qy q * qy q + qz q * qz q = 1.

(** The value of [np.linalg.inv(H_aeroRef_T265Ref)]. *)
Definition forward_body : mat4 :=
  Mat4 0 1 0 0
       0 0 (-1) 0
       (-1) 0 0 0
       0 0 0 1.

(** [H_T265Ref_T265body] of lines 639-642. *)
Definition T265_pose (d : pose_data) (scale : R) : mat4 :=
  set_translation (quaternion_matrix (rotation d))
    (translation_x d * scale) (translation_y d * scale) (translation_z d * scale).

(** The body-offset correction of lines 648-654 in closed form. *)
Definition with_offset (cfg : config) (H : mat4) : mat4 :=
  if (body_offset_enabled cfg =? 1)%Z then
    dot (set_translation identity4
           (body_offset_x cfg) (body_offset_y cfg) (body_offset_z cfg))
        (dot H (set_translation identity4
                  (- body_offset_x cfg) (- body_offset_y cfg) (- body_offset_z cfg)))
  else H.

(** An operator line that is either rejected or a positive number. *)
Definition positive_line (ev : event) : Prop :=
  match ev with
  | Operator_line (Some s) => 0 < s
  | _ => True
  end.

End Statements.

(** The script with [compass_enabled] edited to 1. *)
Definition compass_config : config :=
  Config 0 (5 / 100)%R 0%R 0%R 1 false None.

(** A [rows x cols] image. *)
Definition has_shape {A : Type} (rows cols : nat) (img : list (list A)) : bool :=
  (List.length img =? rows)%nat &&
  forallb (fun row => (List.length row =? cols)%nat) img.


Definition pixel (raw : list (list Z)) (r c : nat) : Z := nth c (nth r raw []) 0%Z.

(** The value the loop of lines 697-698 stores in [distances[i]]: read off
    row [4 i], column [150] of the cropped image, which is column [262] of
    the matcher's output. *)
Definition sampled_entry (nonfinite_as_int : Z) (Qm : Qmat) (raw : list (list Z))
    (i : nat) : Z :=
  astype_uint16 nonfinite_as_int
    (floor_norm_cm
       (reproject_pixel Qm 150 (i * 4) (inject_Z (pixel raw (i * 4) 262) / 16))).

(** Test inputs: a matcher output of constant value, the T265 baseline of
    64 mm and its reprojection matrix, and a scene that is near on the left
    half of the cropped image (disparity 100 px) and far on the right half
    (disparity 20 px), the same on every row. *)
Definition raw_uniform (v : Z) : list (list Z) := repeat (repeat v 412%nat) 300%nat.

Definition T265_baseline : Q := - (64 # 1000).

Definition Qm_T265 : Qmat :=
  ((1, 0, 0, - (stereo_cx - inject_Z max_disp)),
   (0, 1, 0, - stereo_cy),
   (0, 0, 0, stereo_focal_px),
   (0, 0, - 1 / T265_baseline, 0))%Q.

Definition raw_left_obstacle : list (list Z) :=
  repeat (repeat 1600%Z 262 ++ repeat 320%Z 150) 300.

Definition forward_mount : mount := Mount forward_ref forward_body.

(** The exact arithmetic mean, as the specification words the distance
    report. *)
Definition mean_Q (l : list Z) : Q :=
  (inject_Z (sum_Z l) / inject_Z (Z.of_nat (List.length l)))%Q.

(** The five centermost sectors, [distances[33:38]]. *)
Definition centre (dists : list Z) : list Z := slice 33 38 dists.

Definition is_frames (ev : event) : bool :=
  match ev with Frames _ _ _ => true | _ => false end.

Definition no_frames (evs : list event) : bool :=
  forallb (fun ev => negb (is_frames ev)) evs.

(** Nothing has been published by the acquisition loop yet. *)
Definition unpublished (st : state) : Prop :=
  data st = None /\ H_aeroRef_aeroBody st = None /\ distances st = repeat 0%Z 72.

Definition set_data (d : option pose_data) (st : state) : state :=
  State (scale_factor st) (current_time st) (distances st) d (current_confidence st)
        (H_aeroRef_aeroBody st) (heading_north_yaw st) (scale_thread_alive st).

(** Successive confidence ticks; tick [k] finds the pose sample [ds[k]] in
    the global [data]. *)
Fixpoint confidence_ticks (ds : list pose_data) (st : state)
  : result (state * list output) :=
  match ds with
  | [] => Ok (st, [])
  | d :: ds' =>
      r <- send_confidence_level_dummy_message (set_data (Some d) st) ;;
      r' <- confidence_ticks ds' (fst r) ;;
      Ok (fst r', snd r ++ snd r')
  end.

(** A pose sample at the origin with identity rotation and the given
    tracker confidence. *)
Definition still_pose (c : nat) : pose_data :=
  PoseData 0%R 0%R 0%R (Quat 1%R 0%R 0%R 0%R) c.

(** ** Start-up: connection retries and report frequencies *)

(** One call of [dronekit.connect]: a vehicle, any exception other than an
    operator interrupt, or [KeyboardInterrupt]. *)
Inductive attempt (V : Type) : Type :=
  | Connected (v : V)
  | Refused
  | Interrupted.
Arguments Connected {V} v.
Arguments Refused {V}.
Arguments Interrupted {V}.

(** How the loop [while (not vehicle_connect()): pass] ends on a given
    sequence of attempts: with a vehicle, by [sys.exit()] after
    [pipe.stop()], or still retrying when the sequence is used up.  The
    count is the number of 'Connection error! Retrying...' lines printed. *)
Inductive connection (V : Type) : Type :=
  | Vehicle (v : V) (retries : nat)
  | Exited (retries : nat)
  | Retrying (retries : nat).
Arguments Vehicle {V} v retries.
Arguments Exited {V} retries.
Arguments Retrying {V} retries.

(** [vehicle_connect] under the loop of lines 487-488.  The global
    [vehicle] is [None] until an attempt succeeds, so a refused attempt
    returns [False] and the loop calls again. *)
Fixpoint vehicle_connect_loop {V : Type} (attempts : list (attempt V)) (retries : nat)
  : connection V :=
  match attempts with
  | [] => Retrying retries
  | Connected v :: _ => Vehicle v retries
  | Refused :: rest => vehicle_connect_loop rest (S retries)
  | Interrupted :: _ => Exited retries
  end.

Definition vision_msg_hz_default : Q := 20.
Definition obstacle_distance_msg_hz_default : Q := 15.
Definition confidence_msg_hz_default : Q := 1.

(** Lines 151-167: [if not hz: hz = default].  A missing option is [None];
    an option given as zero is falsy as well. *)
Definition resolve_hz (arg : option Q) (default : Q) : Q :=
  match arg with
  | None => default
  | Some hz => if Qeq_bool hz 0 then default else hz
  end.

(** The [seconds = 1/hz] of lines 505-508; Python raises
    [ZeroDivisionError] on a zero frequency, here [None]. *)
Definition interval_seconds (hz : Q) : option Q :=
  if Qeq_bool hz 0 then None else Some (1 / hz)%Q.

(** ** Home position *)

Definition home_lat : Z := 151269321.
Definition home_lon : Z := 16624301.
Definition home_alt : Z := 163000.

(** The two messages of [set_default_global_origin] and
    [set_default_home_position], fields in the order of the [*_encode]
    calls. *)
Inductive home_msg : Type :=
  | set_gps_global_origin (target_system latitude longitude altitude : Z)
  | set_home_position (target_system latitude longitude altitude x y z : Z)
      (q : list Z) (approach_x approach_y approach_z : Z).

Definition set_default_global_origin (source_system : Z) : list home_msg :=
  [set_gps_global_origin source_system home_lat home_lon home_alt].

Definition set_default_home_position (source_system : Z) : list home_msg :=
  [set_home_position source_system home_lat home_lon home_alt 0 0 0
     [1; 0; 0; 0]%Z 0 0 1].

(** [statustext_callback]: the messages sent on a STATUSTEXT with the
    given text. *)
Definition statustext_callback (source_system : Z) (text : string) : list home_msg :=
  if (String.eqb text "GPS Glitch" || String.eqb text "GPS Glitch cleared" ||
      String.eqb text "EKF2 IMU1 ext nav yaw alignment complete")%bool
  then set_default_global_origin source_system ++
       set_default_home_position source_system
  else [].

(** The three texts that indicate the EKF is ready for a home position. *)
Definition ekf_ready_texts : list string :=
  ["GPS Glitch"; "GPS Glitch cleared";
   "EKF2 IMU1 ext nav yaw alignment complete"]%string.

(** ** Further definitions used to state properties *)

(** Number of text notifications a run of confidence ticks must produce:
    one for each tick whose level differs from the level before it, the
    level before the first tick being the one last reported, if any. *)
Fixpoint level_changes (prev : option nat) (levels : list nat) : nat :=
  match levels with
  | [] => 0
  | c :: rest =>
      (match prev with
       | None => 1
       | Some p => if Nat.eqb p c then 0 else 1
       end + level_changes (Some c) rest)%nat
  end.

(** The confidence values of the numeric reports in an output trace. *)
Definition numeric_reports (out : list output) : list Q :=
  flat_map (fun o => match o with
                     | Send (vision_position_delta _ _ _ _ c) => [c]
                     | _ => []
                     end) out.

(** [float(data.tracker_confidence * 100 / 3)] *)
Definition confidence_percent (c : nat) : Q := (inject_Z (Z.of_nat c * 100) / 3)%Q.

(** The pose of line 645, before the offset and compass corrections. *)
Definition uncorrected_pose (mnt : mount) (d : pose_data) (scale : R) : mat4 :=
  dot (H_aeroRef_T265Ref mnt) (dot (T265_pose d scale) (H_T265body_aeroBody mnt)).

Definition uint16 (v : Z) : Prop := (0 <= v < 65536)%Z.

(** * Properties *)

(** ** Matrix algebra *)

Section GeometryFacts.
Local Open Scope R_scope.

Ltac mat_unfold :=
  cbv [dot entry transpose rotation_block det_rot det3 set_translation identity4
       e00 e01 e02 e03 e10 e11 e12 e13 e20 e21 e22 e23 e30 e31 e32 e33
       det4 cofactor minor skip Nat.ltb Nat.leb Nat.even Nat.add adjugate_over
       forward_ref downward_body forward_body translation].

Ltac proj_simpl :=
  cbn [e00 e01 e02 e03 e10 e11 e12 e13 e20 e21 e22 e23 e30 e31 e32 e33] in *.

Lemma Mat4_eq a00 a01 a02 a03 a10 a11 a12 a13 a20 a21 a22 a23 a30 a31 a32 a33
  b00 b01 b02 b03 b10 b11 b12 b13 b20 b21 b22 b23 b30 b31 b32 b33 :
  a00 = b00 -> a01 = b01 -> a02 = b02 -> a03 = b03 ->
  a10 = b10 -> a11 = b11 -> a12 = b12 -> a13 = b13 ->
  a20 = b20 -> a21 = b21 -> a22 = b22 -> a23 = b23 ->
  a30 = b30 -> a31 = b31 -> a32 = b32 -> a33 = b33 ->
  Mat4 a00 a01 a02 a03 a10 a11 a12 a13 a20 a21 a22 a23 a30 a31 a32 a33 =
  Mat4 b00 b01 b02 b03 b10 b11 b12 b13 b20 b21 b22 b23 b30 b31 b32 b33.
Proof. intros; subst; reflexivity. Qed.

Lemma Ok_eq {A : Type} (a b : A) : a = b -> Ok a = Ok b.
Proof. intros; subst; reflexivity. Qed.

Ltac mat_ring := mat_unfold; apply Mat4_eq; ring.

Lemma dot_assoc A B C : dot (dot A B) C = dot A (dot B C).
Proof. destruct A, B, C. mat_ring. Qed.

Lemma dot_identity4_l A : dot identity4 A = A.
Proof. destruct A. mat_ring. Qed.

Lemma dot_identity4_r A : dot A identity4 = A.
Proof. destruct A. mat_ring. Qed.

Lemma transpose_dot A B : transpose (dot A B) = dot (transpose B) (transpose A).
Proof. destruct A, B. mat_ring. Qed.

Lemma homogeneous_dot A B : homogeneous A -> homogeneous B -> homogeneous (dot A B).
Proof.
  destruct A, B. unfold homogeneous. proj_simpl.
  intros (-> & -> & -> & ->) (-> & -> & -> & ->).
  mat_unfold. repeat split; ring.
Qed.

Lemma rotation_block_dot A B :
  homogeneous B ->
  rotation_block (dot A B) = dot (rotation_block A) (rotation_block B).
Proof.
  destruct A, B. unfold homogeneous. proj_simpl.
  intros (-> & -> & -> & ->). mat_ring.
Qed.

Lemma det_rot_dot A B :
  homogeneous B -> det_rot (dot A B) = det_rot A * det_rot B.
Proof.
  destruct A, B. unfold homogeneous. proj_simpl.
  intros (-> & -> & -> & ->). mat_unfold. ring.
Qed.

(** Rigid transforms are closed under composition. *)
Lemma rigid_dot A B : rigid A -> rigid B -> rigid (dot A B).
Proof.
  intros (OA & DA & HA) (OB & DB & HB).
  split; [| split].
  - rewrite rotation_block_dot by exact HB.
    rewrite transpose_dot, dot_assoc.
    rewrite <- (dot_assoc (rotation_block B)), OB, dot_identity4_l. exact OA.
  - rewrite det_rot_dot by exact HB. rewrite DA, DB. ring.
  - apply homogeneous_dot; assumption.
Qed.

Lemma rigid_set_translation H x y z : rigid H -> rigid (set_translation H x y z).
Proof. destruct H. intros Hr. exact Hr. Qed.

Ltac rigid_closed :=
  unfold rigid; mat_unfold;
  split; [apply Mat4_eq; ring | split; [ring | repeat split; ring]].

Lemma rigid_identity4 : rigid identity4.
Proof. rigid_closed. Qed.

Lemma rigid_forward_ref : rigid forward_ref.
Proof. rigid_closed. Qed.

Lemma rigid_downward_body : rigid downward_body.
Proof. rigid_closed. Qed.

Lemma rigid_forward_body : rigid forward_body.
Proof. rigid_closed. Qed.

Lemma rigid_translation x y z : rigid (set_translation identity4 x y z).
Proof. apply rigid_set_translation, rigid_identity4. Qed.

(** *** [numpy.linalg.inv] *)

Lemma inv_nonsingular M : det4 M <> 0 -> inv M = Ok (adjugate_over M (det4 M)).
Proof.
  intros H. unfold inv.
  destruct (Req_dec_T (det4 M) 0) as [E | _]; [contradiction | reflexivity].
Qed.

Lemma inv_singular M : det4 M = 0 -> inv M = Raise LinAlgError.
Proof.
  intros H. unfold inv.
  destruct (Req_dec_T (det4 M) 0) as [_ | E]; [reflexivity | contradiction].
Qed.

(** The adjugate formula gives a two-sided inverse. *)
Lemma inv_correct M M' :
  inv M = Ok M' -> dot M M' = identity4 /\ dot M' M = identity4.
Proof.
  unfold inv. destruct (Req_dec_T (det4 M) 0) as [E | NE]; [discriminate |].
  intros E. injection E as <-. revert NE. destruct M as
    [a00 a01 a02 a03 a10 a11 a12 a13 a20 a21 a22 a23 a30 a31 a32 a33].
  set (d := det4 _). intros NE.
  assert (Hd : d = det4 (Mat4 a00 a01 a02 a03 a10 a11 a12 a13
                              a20 a21 a22 a23 a30 a31 a32 a33)) by reflexivity.
  revert Hd. mat_unfold. intros Hd.
  split; apply Mat4_eq; (field_simplify_eq; [try rewrite Hd; ring | exact NE]).
Qed.

Lemma det4_forward_ref : det4 forward_ref = 1.
Proof. mat_unfold. ring. Qed.

Lemma inv_forward_ref : inv forward_ref = Ok forward_body.
Proof.
  rewrite inv_nonsingular by (rewrite det4_forward_ref; lra).
  rewrite det4_forward_ref. apply Ok_eq.
  mat_unfold. apply Mat4_eq; field.
Qed.

Lemma det4_translation x y z : det4 (set_translation identity4 x y z) = 1.
Proof. mat_unfold. ring. Qed.

Lemma inv_translation x y z :
  inv (set_translation identity4 x y z) =
  Ok (set_translation identity4 (- x) (- y) (- z)).
Proof.
  rewrite inv_nonsingular by (rewrite det4_translation; lra).
  rewrite det4_translation. apply Ok_eq. mat_unfold. apply Mat4_eq; field.
Qed.

(** *** Mount orientation *)

(** The selection of lines 216-227 never fails; orientation 1 is the
    downward mount and every other value the forward mount. *)
Lemma mount_transforms_value o :
  mount_transforms o =
  Ok (Mount forward_ref (if (o =? 1)%Z then downward_body else forward_body)).
Proof.
  unfold mount_transforms.
  destruct (o =? 0)%Z eqn:E0.
  - apply Z.eqb_eq in E0. subst o. rewrite inv_forward_ref. reflexivity.
  - destruct (o =? 1)%Z; [reflexivity |]. rewrite inv_forward_ref. reflexivity.
Qed.

Lemma rigid_mount o mnt :
  mount_transforms o = Ok mnt ->
  rigid (H_aeroRef_T265Ref mnt) /\ rigid (H_T265body_aeroBody mnt).
Proof.
  rewrite mount_transforms_value. intros E. injection E as <-.
  cbn [H_aeroRef_T265Ref H_T265body_aeroBody]. split; [apply rigid_forward_ref |].
  destruct (o =? 1)%Z; [apply rigid_downward_body | apply rigid_forward_body].
Qed.

Lemma zero_translation_mount o mnt :
  mount_transforms o = Ok mnt ->
  H_aeroRef_T265Ref mnt = forward_ref /\ zero_translation (H_T265body_aeroBody mnt).
Proof.
  rewrite mount_transforms_value. intros E. injection E as <-.
  cbn [H_aeroRef_T265Ref H_T265body_aeroBody]. split; [reflexivity |].
  destruct (o =? 1)%Z; unfold zero_translation, downward_body, forward_body;
    proj_simpl; repeat split; reflexivity.
Qed.

(** *** Rotations built from angles and quaternions *)

Lemma euler_matrix_0 : euler_matrix 0 0 0 = identity4.
Proof.
  unfold euler_matrix. rewrite sin_0, cos_0. unfold identity4.
  apply Mat4_eq; ring.
Qed.

Lemma rigid_euler_yaw yaw : rigid (euler_matrix 0 0 yaw).
Proof.
  unfold rigid, euler_matrix. rewrite sin_0, cos_0.
  pose proof (sin2_cos2 yaw) as Hsc. unfold Rsqr in Hsc.
  mat_unfold.
  split; [apply Mat4_eq; nsatz | split; [nsatz | repeat split; ring]].
Qed.

Lemma _EPS_lt_1 : _EPS < 1.
Proof.
  unfold _EPS.
  assert (H : 4 < 2 ^ 52) by (simpl; lra).
  apply Rmult_lt_reg_r with (2 ^ 52); [lra |].
  field_simplify; lra.
Qed.

(** On a unit quaternion the rescaling by [sqrt(2/n)] is by [sqrt 2], and
    the matrix is the usual rotation matrix. *)
Lemma quaternion_matrix_unit q :
  unit_quaternion q ->
  quaternion_matrix q =
  let '(w, x, y, z) := (qw q, qx q, qy q, qz q) in
  Mat4 (1 - 2 * (y * y + z * z)) (2 * (x * y - z * w)) (2 * (x * z + y * w)) 0
       (2 * (x * y + z * w)) (1 - 2 * (x * x + z * z)) (2 * (y * z - x * w)) 0
       (2 * (x * z - y * w)) (2 * (y * z + x * w)) (1 - 2 * (x * x + y * y)) 0
       0 0 0 1.
Proof.
  unfold unit_quaternion, quaternion_matrix. intros Hn. rewrite Hn.
  destruct (Rlt_dec 1 _EPS) as [Hlt | _].
  - pose proof _EPS_lt_1. lra.
  - cbv zeta.
    assert (Hs : sqrt (2 / 1) * sqrt (2 / 1) = 2).
    { rewrite sqrt_sqrt; lra. }
    set (s := sqrt (2 / 1)) in *. clearbody s.
    apply Mat4_eq; try reflexivity; nsatz.
Qed.

Lemma rigid_quaternion_matrix q : unit_quaternion q -> rigid (quaternion_matrix q).
Proof.
  intros Hq. rewrite (quaternion_matrix_unit q Hq).
  destruct q as [w x y z]. unfold unit_quaternion in Hq. cbn [qw qx qy qz] in *.
  unfold rigid. mat_unfold.
  split; [apply Mat4_eq; nsatz | split; [nsatz | repeat split; ring]].
Qed.

(** ** The pose branch of the acquisition loop *)

Lemma quat_eta q : Quat (qw q) (qx q) (qy q) (qz q) = q.
Proof. destruct q; reflexivity. Qed.

(** The value computed by [process_pose], by cases on the two switches.
    With the compass enabled and no ATTITUDE message received yet,
    [euler_matrix] is called on [None] and raises. *)
Lemma process_pose_value cfg mnt now d st :
  process_pose cfg mnt now d st =
  let H := with_offset cfg
             (dot (H_aeroRef_T265Ref mnt)
                  (dot (T265_pose d (scale_factor st)) (H_T265body_aeroBody mnt))) in
  if (compass_enabled cfg =? 1)%Z then
    match heading_north_yaw st with
    | Some yaw => Ok (set_pose now d (dot H (euler_matrix 0 0 yaw)) st)
    | None => Raise TypeError
    end
  else Ok (set_pose now d H st).
Proof.
  unfold process_pose, with_offset, T265_pose. rewrite quat_eta.
  destruct (body_offset_enabled cfg =? 1)%Z.
  - rewrite euler_matrix_0, inv_translation. cbn [bind].
    destruct (compass_enabled cfg =? 1)%Z; [destruct (heading_north_yaw st) |];
      reflexivity.
  - cbn [bind].
    destruct (compass_enabled cfg =? 1)%Z; [destruct (heading_north_yaw st) |];
      reflexivity.
Qed.

Lemma rigid_with_offset cfg H : rigid H -> rigid (with_offset cfg H).
Proof.
  intros Hr. unfold with_offset.
  destruct (body_offset_enabled cfg =? 1)%Z; [| exact Hr].
  apply rigid_dot; [apply rigid_translation |].
  apply rigid_dot; [exact Hr | apply rigid_translation].
Qed.

Lemma process_pose_rigid cfg mnt now d st :
  rigid (H_aeroRef_T265Ref mnt) -> rigid (H_T265body_aeroBody mnt) ->
  unit_quaternion (rotation d) ->
  (compass_enabled cfg = 1%Z -> heading_north_yaw st <> None) ->
  exists H, process_pose cfg mnt now d st = Ok (set_pose now d H st) /\ rigid H.
Proof.
  intros HA HB Hq Hyaw. rewrite process_pose_value. cbv zeta.
  assert (Hr : rigid (with_offset cfg
             (dot (H_aeroRef_T265Ref mnt)
                  (dot (T265_pose d (scale_factor st)) (H_T265body_aeroBody mnt))))).
  { apply rigid_with_offset, rigid_dot; [exact HA |].
    apply rigid_dot; [| exact HB].
    apply rigid_set_translation, rigid_quaternion_matrix, Hq. }
  destruct (compass_enabled cfg =? 1)%Z eqn:Ec.
  - apply Z.eqb_eq in Ec. specialize (Hyaw Ec).
    destruct (heading_north_yaw st) as [yaw |]; [| contradiction].
    eexists; split; [reflexivity |].
    apply rigid_dot; [exact Hr | apply rigid_euler_yaw].
  - eexists; split; [reflexivity | exact Hr].
Qed.

(** C8: for every mount orientation the script accepts (0 forward, 1
    downward, anything else falling back to forward) and every pose sample
    with a unit quaternion, the pose branch succeeds and the navigation pose
    it publishes is rigid: rotation block orthonormal, determinant 1,
    homogeneous last row.  This holds with the body offset and the compass
    correction off or on; with the compass on, a heading must have been
    received. *)
Theorem navigation_pose_rigid (cfg : config) (now : Z) (d : pose_data) (st : state) :
  unit_quaternion (rotation d) ->
  (compass_enabled cfg = 1%Z -> heading_north_yaw st <> None) ->
  exists mnt H,
    mount_transforms (camera_orientation cfg) = Ok mnt /\
    process_pose cfg mnt now d st = Ok (set_pose now d H st) /\
    rigid H.
Proof.
  intros Hq Hyaw.
  destruct (mount_transforms (camera_orientation cfg)) as [mnt | e] eqn:Em.
  - destruct (rigid_mount _ _ Em) as [HA HB].
    destruct (process_pose_rigid cfg mnt now d st HA HB Hq Hyaw) as (H & E & Hr).
    exists mnt, H. auto.
  - rewrite mount_transforms_value in Em. discriminate Em.
Qed.

Lemma navigation_pose_rigid_witness :
  let cfg := source_config false (Some 1%Z) in
  let d := PoseData 1 0 0 (Quat 1 0 0 0) 3 in
  unit_quaternion (rotation d) /\
  exists mnt H,
    mount_transforms (camera_orientation cfg) = Ok mnt /\
    process_pose cfg mnt 0 d (initial_state cfg) =
      Ok (set_pose 0 d H (initial_state cfg)) /\
    rigid H.
Proof.
  intros cfg d.
  assert (Hq : unit_quaternion (rotation d)).
  { unfold unit_quaternion, d. cbn [rotation qw qx qy qz]. ring. }
  split; [exact Hq |].
  apply (navigation_pose_rigid cfg 0 d (initial_state cfg) Hq).
  intros Hc. discriminate Hc.
Defined.

(** *** Translation part and the scale factor *)

Lemma translation_forward H B x y z :
  zero_translation B ->
  translation (dot forward_ref (dot (set_translation H x y z) B)) = (- z, x, - y).
Proof.
  destruct H, B. unfold zero_translation. proj_simpl.
  intros (-> & -> & -> & ->). mat_unfold.
  apply f_equal2; [apply f_equal2 |]; ring.
Qed.

Lemma translation_dot_yaw H yaw :
  translation (dot H (euler_matrix 0 0 yaw)) = translation H.
Proof.
  destruct H. unfold euler_matrix. mat_unfold.
  apply f_equal2; [apply f_equal2 |]; ring.
Qed.

Lemma norm3_double x y z s :
  norm3 (- (z * (2 * s)), x * (2 * s), - (y * (2 * s))) =
  2 * norm3 (- (z * s), x * s, - (y * s)).
Proof.
  unfold norm3.
  replace (- (z * (2 * s)) * - (z * (2 * s)) + x * (2 * s) * (x * (2 * s)) +
           - (y * (2 * s)) * - (y * (2 * s)))
    with (2 * 2 * (- (z * s) * - (z * s) + x * s * (x * s) + - (y * s) * - (y * s)))
    by ring.
  rewrite sqrt_mult; [| lra | nra].
  rewrite sqrt_square by lra. reflexivity.
Qed.

(** Without the body offset, the published translation is the scaled
    sample translation with its axes permuted into the aeronautical frame
    (x forward = -z, y right = x, z down = -y), whatever the rotation and
    whether or not the compass correction is applied. *)
Lemma process_pose_translation cfg o mnt now d st :
  body_offset_enabled cfg <> 1%Z ->
  (compass_enabled cfg = 1%Z -> heading_north_yaw st <> None) ->
  mount_transforms o = Ok mnt ->
  exists H,
    process_pose cfg mnt now d st = Ok (set_pose now d H st) /\
    translation H = (- (translation_z d * scale_factor st),
                     translation_x d * scale_factor st,
                     - (translation_y d * scale_factor st)).
Proof.
  intros Hoff Hyaw Em. destruct (zero_translation_mount _ _ Em) as [EA HB].
  rewrite process_pose_value. unfold with_offset.
  apply Z.eqb_neq in Hoff. rewrite Hoff. cbv zeta.
  assert (T : translation (dot (H_aeroRef_T265Ref mnt)
                (dot (T265_pose d (scale_factor st)) (H_T265body_aeroBody mnt))) =
              (- (translation_z d * scale_factor st),
               translation_x d * scale_factor st,
               - (translation_y d * scale_factor st))).
  { rewrite EA. unfold T265_pose. apply translation_forward, HB. }
  destruct (compass_enabled cfg =? 1)%Z eqn:Ec.
  - apply Z.eqb_eq in Ec. specialize (Hyaw Ec).
    destruct (heading_north_yaw st) as [yaw |]; [| contradiction].
    eexists; split; [reflexivity |]. rewrite translation_dot_yaw. exact T.
  - eexists; split; [reflexivity | exact T].
Qed.

(** With the body offset (0.05, 0, 0) enabled, the forward mount and the
    camera turned by half a turn about its x axis, the published position
    is the scaled sample position plus 0.1 m along x, whatever the scale
    factor. *)
Lemma process_pose_offset_half_turn x y z s :
  let cfg := Config 1 (5 / 100) 0 0 0 false None in
  let d := PoseData x y z (Quat 0 1 0 0) 3 in
  let st := set_scale_factor s (initial_state cfg) in
  exists H,
    process_pose cfg forward_mount 0 d st = Ok (set_pose 0 d H st) /\
    translation H = (1 / 10 - z * s, x * s, - (y * s)).
Proof.
  intros cfg d st. rewrite process_pose_value. cbv zeta.
  change (compass_enabled cfg =? 1)%Z with false.
  eexists; split; [reflexivity |].
  unfold with_offset. change (body_offset_enabled cfg =? 1)%Z with true.
  unfold T265_pose, cfg, d, st.
  cbn [body_offset_x body_offset_y body_offset_z rotation
       translation_x translation_y translation_z scale_factor set_scale_factor
       H_aeroRef_T265Ref H_T265body_aeroBody forward_mount].
  rewrite quaternion_matrix_unit
    by (unfold unit_quaternion; cbn [qw qx qy qz]; ring).
  cbn [qw qx qy qz]. cbv beta iota zeta. mat_unfold.
  apply f_equal2; [apply f_equal2 |]; field.
Qed.

Lemma norm3_x_axis a : 0 <= a -> norm3 (a, 0, 0) = a.
Proof.
  intros Ha. unfold norm3.
  replace (a * a + 0 * 0 + 0 * 0) with (a * a) by ring.
  apply sqrt_square, Ha.
Qed.

(** With the body offset enabled, doubling the scale factor does not double
    the magnitude of the published translation: for a sample 0.3 m along
    the camera's -z axis, camera turned by half a turn about its x axis,
    the magnitude is 0.4 m at scale 1 and 0.7 m at scale 2. *)
Lemma scale_doubling_fails_with_offset :
  let cfg := Config 1 (5 / 100) 0 0 0 false None in
  let d := PoseData 0 0 (- (3 / 10)) (Quat 0 1 0 0) 3 in
  let st1 := set_scale_factor 1 (initial_state cfg) in
  let st2 := set_scale_factor (2 * 1) (initial_state cfg) in
  unit_quaternion (rotation d) /\
  mount_transforms (camera_orientation cfg) = Ok forward_mount /\
  exists H1 H2,
    process_pose cfg forward_mount 0 d st1 = Ok (set_pose 0 d H1 st1) /\
    process_pose cfg forward_mount 0 d st2 = Ok (set_pose 0 d H2 st2) /\
    norm3 (translation H1) = 4 / 10 /\
    norm3 (translation H2) = 7 / 10 /\
    norm3 (translation H2) <> 2 * norm3 (translation H1).
Proof.
  intros cfg d st1 st2.
  split; [unfold unit_quaternion, d; cbn [rotation qw qx qy qz]; ring |].
  split; [apply mount_transforms_value |].
  destruct (process_pose_offset_half_turn 0 0 (- (3 / 10)) 1) as (H1 & E1 & T1).
  destruct (process_pose_offset_half_turn 0 0 (- (3 / 10)) (2 * 1)) as (H2 & E2 & T2).
  exists H1, H2.
  assert (N1 : norm3 (translation H1) = 4 / 10).
  { rewrite T1.
    replace (1 / 10 - - (3 / 10) * 1, 0 * 1, - (0 * 1)) with (4 / 10, 0, 0)
      by (apply f_equal2; [apply f_equal2 |]; field).
    apply norm3_x_axis. lra. }
  assert (N2 : norm3 (translation H2) = 7 / 10).
  { rewrite T2.
    replace (1 / 10 - - (3 / 10) * (2 * 1), 0 * (2 * 1), - (0 * (2 * 1)))
      with (7 / 10, 0, 0)
      by (apply f_equal2; [apply f_equal2 |]; field).
    apply norm3_x_axis. lra. }
  split; [exact E1 |]. split; [exact E2 |].
  split; [exact N1 |]. split; [exact N2 |].
  rewrite N1, N2. lra.
Qed.

(** C7 (amended): with the body-offset correction off (as the script sets
    it), and the compass correction off or on with a heading received, for
    every mount orientation, pose sample and state, running the pose branch
    with scale factor [2 * s] instead of [s] doubles the Euclidean norm of
    the translation of the published navigation pose. *)
Theorem scale_doubling_without_offset (cfg : config) (now : Z) (d : pose_data)
    (st : state) (s : R) :
  body_offset_enabled cfg <> 1%Z ->
  (compass_enabled cfg = 1%Z -> heading_north_yaw st <> None) ->
  let st1 := set_scale_factor s st in
  let st2 := set_scale_factor (2 * s) st in
  exists mnt H1 H2,
    mount_transforms (camera_orientation cfg) = Ok mnt /\
    process_pose cfg mnt now d st1 = Ok (set_pose now d H1 st1) /\
    process_pose cfg mnt now d st2 = Ok (set_pose now d H2 st2) /\
    norm3 (translation H2) = 2 * norm3 (translation H1).
Proof.
  intros Hoff Hyaw st1 st2.
  destruct (mount_transforms (camera_orientation cfg)) as [mnt | e] eqn:Em.
  - destruct (process_pose_translation cfg _ mnt now d st1 Hoff Hyaw Em)
      as (H1 & E1 & T1).
    destruct (process_pose_translation cfg _ mnt now d st2 Hoff Hyaw Em)
      as (H2 & E2 & T2).
    exists mnt, H1, H2. repeat split; try assumption.
    rewrite T1, T2. unfold st1, st2. cbn [set_scale_factor scale_factor].
    apply norm3_double.
  - rewrite mount_transforms_value in Em. discriminate Em.
Qed.

Lemma scale_doubling_without_offset_witness :
  let cfg := compass_config in
  let d := PoseData 1 2 3 (Quat 0 1 0 0) 3 in
  let st := set_heading_north_yaw (Some 1) (initial_state cfg) in
  let st1 := set_scale_factor 3 st in
  let st2 := set_scale_factor (2 * 3) st in
  body_offset_enabled cfg <> 1%Z /\
  (compass_enabled cfg = 1%Z -> heading_north_yaw st <> None) /\
  exists mnt H1 H2,
    mount_transforms (camera_orientation cfg) = Ok mnt /\
    process_pose cfg mnt 0 d st1 = Ok (set_pose 0 d H1 st1) /\
    process_pose cfg mnt 0 d st2 = Ok (set_pose 0 d H2 st2) /\
    norm3 (translation H2) = 2 * norm3 (translation H1).
Proof.
  intros cfg d st st1 st2.
  assert (H1 : body_offset_enabled cfg <> 1%Z) by (intros E; discriminate E).
  assert (H2 : compass_enabled cfg = 1%Z -> heading_north_yaw st <> None)
    by (intros _ E; discriminate E).
  split; [exact H1 |]. split; [exact H2 |].
  exact (scale_doubling_without_offset cfg 0 d st 3 H1 H2).
Defined.

(** The scenario of a sample at (1, 0, 0) m with identity rotation, forward
    mount and scale 2: the navigation pose is 2 m along the y axis. *)
Example scale_two_scenario :
  let cfg := source_config false None in
  let d := PoseData 1 0 0 (Quat 1 0 0 0) 3 in
  let st := set_scale_factor 2 (initial_state cfg) in
  exists H,
    process_pose cfg forward_mount 0 d st = Ok (set_pose 0 d H st) /\
    translation H = (0, 2, 0) /\ norm3 (translation H) = 2.
Proof.
  intros cfg d st.
  destruct (process_pose_translation cfg 0%Z forward_mount 0 d st) as (H & E & T).
  - intros E; discriminate E.
  - intros E; discriminate E.
  - apply mount_transforms_value.
  - exists H. split; [exact E |].
    assert (T' : translation H = (0, 2, 0)).
    { rewrite T. unfold d, st. cbn [translation_x translation_y translation_z
        set_scale_factor scale_factor].
      apply f_equal2; [apply f_equal2 |]; ring. }
    split; [exact T' |]. rewrite T'. unfold norm3.
    replace (0 * 0 + 2 * 2 + 0 * 0) with (2 * 2) by ring.
    apply sqrt_square. lra.
Qed.

End GeometryFacts.

(** ** Indexing *)

Section ListFacts.

Lemma index_nth_error {A : Type} (l : list A) i a :
  nth_error l i = Some a -> index l i = Ok a.
Proof. unfold index. intros ->. reflexivity. Qed.

Lemma nth_error_mapi_from {A B : Type} (f : nat -> A -> B) l : forall k i,
  nth_error (mapi_from f k l) i = option_map (f (k + i)%nat) (nth_error l i).
Proof.
  induction l as [| a l IH]; intros k i.
  - destruct i; reflexivity.
  - destruct i as [| i]; cbn.
    + rewrite Nat.add_0_r. reflexivity.
    + rewrite IH. f_equal. f_equal. lia.
Qed.

Lemma index_mapi_from {A B : Type} (f : nat -> A -> B) l i :
  index (mapi_from f 0 l) i = (a <- index l i ;; Ok (f i a)).
Proof.
  unfold index. rewrite nth_error_mapi_from. cbn.
  destruct (nth_error l i); reflexivity.
Qed.

Lemma index_map {A B : Type} (f : A -> B) l i :
  index (map f l) i = (a <- index l i ;; Ok (f a)).
Proof.
  unfold index. rewrite nth_error_map. destruct (nth_error l i); reflexivity.
Qed.

Lemma index_skipn {A : Type} (l : list A) n i :
  index (skipn n l) i = index l (n + i).
Proof. unfold index. rewrite nth_error_skipn. reflexivity. Qed.

Lemma has_shape_index2 (raw : list (list Z)) rows cols r c :
  has_shape rows cols raw = true -> (r < rows)%nat -> (c < cols)%nat ->
  index2 raw r c = Ok (pixel raw r c).
Proof.
  unfold has_shape, index2, pixel. intros Hs Hr Hc.
  apply andb_true_iff in Hs as [Hl Hrows].
  apply Nat.eqb_eq in Hl. rewrite forallb_forall in Hrows.
  destruct (nth_error raw r) as [row |] eqn:Er.
  - rewrite (index_nth_error _ _ _ Er). cbn [bind].
    rewrite (nth_error_nth _ _ [] Er).
    pose proof (nth_error_In _ _ Er) as Hin. apply Hrows, Nat.eqb_eq in Hin.
    destruct (nth_error row c) as [v |] eqn:Ec.
    + rewrite (index_nth_error _ _ _ Ec), (nth_error_nth _ _ 0%Z Ec). reflexivity.
    + apply nth_error_None in Ec. lia.
  - apply nth_error_None in Er. lia.
Qed.

Lemma setitem_app {A : Type} (pre : list A) a rest v :
  setitem (pre ++ a :: rest) (List.length pre) v = Ok (pre ++ v :: rest).
Proof.
  induction pre as [| b pre IH]; cbn; [reflexivity |]. rewrite IH. reflexivity.
Qed.

Lemma length_setitem {A : Type} (l : list A) : forall i v l',
  setitem l i v = Ok l' -> List.length l' = List.length l.
Proof.
  induction l as [| a l IH]; intros i v l' E; [destruct i; discriminate |].
  destruct i as [| i]; cbn [setitem] in E.
  - injection E as <-. reflexivity.
  - destruct (setitem l i v) as [l'' |] eqn:E'; [| discriminate].
    cbn [bind] in E. injection E as <-. cbn. f_equal. eapply IH; eassumption.
Qed.

Lemma Forall_skipn {A : Type} (P : A -> Prop) n : forall l,
  Forall P l -> Forall P (skipn n l).
Proof.
  induction n as [| n IH]; intros l H; [exact H |].
  destruct l as [| a l]; [exact H |]. inversion H; subst. cbn. apply IH. assumption.
Qed.

Lemma Forall_firstn {A : Type} (P : A -> Prop) n : forall l,
  Forall P l -> Forall P (firstn n l).
Proof.
  induction n as [| n IH]; intros l H; [constructor |].
  destruct l as [| a l]; [constructor |]. inversion H; subst. cbn.
  constructor; [assumption | apply IH; assumption].
Qed.

Lemma sum_Z_nonneg l : Forall (fun d => 0 <= d)%Z l -> (0 <= sum_Z l)%Z.
Proof.
  induction 1 as [| a l Ha Hl IH]; [cbn; lia |].
  change (sum_Z (a :: l)) with (a + sum_Z l)%Z. lia.
Qed.

Lemma nth_map_seq (f : nat -> Z) n i :
  (i < n)%nat -> nth i (map f (seq 0 n)) 0%Z = f i.
Proof.
  intros H. rewrite (nth_indep _ 0%Z (f 0%nat)) by (rewrite length_map, length_seq; exact H).
  rewrite map_nth, seq_nth by exact H. reflexivity.
Qed.

End ListFacts.

(** ** The depth pipeline *)

Section DepthFacts.

(** The point sampled at [[r, c]] comes from the raw disparity at row [r],
    column [max_disp + c]. *)
Lemma index2_points raw Qm points_3D r c :
  reprojectImageTo3D (crop_valid (to_pixel_disparity raw)) Qm = Some points_3D ->
  index2 points_3D r c =
  (v <- index2 raw r (Z.to_nat max_disp + c) ;;
   Ok (reproject_pixel Qm c r (inject_Z v / 16))).
Proof.
  intros E.
  assert (Ep : points_3D =
               mapi_from (fun y row =>
                            mapi_from (fun x d => reproject_pixel Qm x y d) 0 row)
                         0 (crop_valid (to_pixel_disparity raw))).
  { unfold reprojectImageTo3D in E.
    destruct (crop_valid (to_pixel_disparity raw)) as [| [| d0 row0] rest];
      [discriminate E | discriminate E |].
    injection E as <-. reflexivity. }
  rewrite Ep. unfold index2, crop_valid, to_pixel_disparity.
  rewrite index_mapi_from, !index_map.
  destruct (index raw r) as [row | e]; cbn [bind]; [| reflexivity].
  rewrite index_mapi_from, index_skipn, index_map.
  destruct (index row (Z.to_nat max_disp + c)); reflexivity.
Qed.

(** An image with at least one row and more than [max_disp] columns is
    reprojected; without rows, or with no column left after the crop, the
    result is [None]. *)
Lemma reprojectImageTo3D_nonempty (raw : list (list Z)) Qm rows cols :
  has_shape rows cols raw = true -> (0 < rows)%nat -> (112 < cols)%nat ->
  exists points_3D,
    reprojectImageTo3D (crop_valid (to_pixel_disparity raw)) Qm = Some points_3D.
Proof.
  unfold has_shape. intros Hs Hr Hc. apply andb_true_iff in Hs as [Hl Hrows].
  apply Nat.eqb_eq in Hl.
  destruct raw as [| row raw]; [cbn in Hl; lia |].
  cbn [forallb] in Hrows. apply andb_true_iff in Hrows as [Hrow _].
  apply Nat.eqb_eq in Hrow.
  unfold reprojectImageTo3D, crop_valid, to_pixel_disparity. cbn [map].
  destruct (skipn (Z.to_nat max_disp) (map (fun v => inject_Z v / 16)%Q row))
    as [| d0 row0] eqn:Es; [| eexists; reflexivity].
  apply (f_equal (@List.length Q)) in Es.
  rewrite length_skipn, length_map, Hrow in Es.
  change (Z.to_nat max_disp) with 112%nat in Es. cbn [List.length] in Es. lia.
Qed.

Lemma reprojectImageTo3D_empty (raw : list (list Z)) Qm rows cols :
  has_shape rows cols raw = true -> (rows = 0 \/ cols <= 112)%nat ->
  reprojectImageTo3D (crop_valid (to_pixel_disparity raw)) Qm = None.
Proof.
  unfold has_shape. intros Hs Hrc. apply andb_true_iff in Hs as [Hl Hrows].
  apply Nat.eqb_eq in Hl.
  destruct raw as [| row raw]; [reflexivity |].
  destruct Hrc as [H0 | Hc]; [cbn in Hl; lia |].
  cbn [forallb] in Hrows. apply andb_true_iff in Hrows as [Hrow _].
  apply Nat.eqb_eq in Hrow.
  unfold reprojectImageTo3D, crop_valid, to_pixel_disparity. cbn [map].
  destruct (skipn (Z.to_nat max_disp) (map (fun v => inject_Z v / 16)%Q row))
    as [| d0 row0] eqn:Es; [reflexivity |].
  apply (f_equal (@List.length Q)) in Es.
  rewrite length_skipn, length_map, Hrow in Es.
  change (Z.to_nat max_disp) with 112%nat in Es. cbn [List.length] in Es. lia.
Qed.

Lemma sample_distances_seq nf (points_3D : list (list point)) (f : nat -> point) :
  forall n k pre old,
    List.length pre = k -> List.length old = n ->
    (forall i, (k <= i < k + n)%nat -> index2 points_3D (i * 4) 150 = Ok (f i)) ->
    sample_distances nf points_3D (seq k n) (pre ++ old) =
    Ok (pre ++ map (fun i => astype_uint16 nf (floor_norm_cm (f i))) (seq k n)).
Proof.
  induction n as [| n IH]; intros k pre old Hk Hn Hp.
  - destruct old; [reflexivity | discriminate].
  - destruct old as [| a old]; [discriminate |]. cbn [seq sample_distances map].
    rewrite Hp by lia. cbn [bind]. rewrite <- Hk at 1. rewrite setitem_app. cbn [bind].
    replace (pre ++ astype_uint16 nf (floor_norm_cm (f k)) :: old)
      with ((pre ++ [astype_uint16 nf (floor_norm_cm (f k))]) ++ old)
      by (rewrite <- app_assoc; reflexivity).
    rewrite IH.
    + rewrite <- app_assoc. reflexivity.
    + rewrite length_app. cbn. lia.
    + cbn in Hn. lia.
    + intros i Hi. apply Hp. lia.
Qed.

(** On a 300 x 412 matcher output the loop never raises and overwrites
    all 72 entries. *)
Lemma estimate_profile nf Qm raw dists :
  has_shape 300 412 raw = true -> List.length dists = 72%nat ->
  estimate nf Qm raw dists = Ok (map (sampled_entry nf Qm raw) (seq 0 72)).
Proof.
  intros Hs Hl. unfold estimate.
  destruct (reprojectImageTo3D_nonempty raw Qm 300 412 Hs) as [points_3D Ep];
    [lia | lia |].
  rewrite Ep.
  apply (sample_distances_seq nf _
           (fun i => reproject_pixel Qm 150 (i * 4)
                       (inject_Z (pixel raw (i * 4) 262) / 16))
           72 0 [] dists eq_refl Hl).
  intros i Hi. rewrite (index2_points raw Qm points_3D _ _ Ep).
  change (Z.to_nat max_disp + 150)%nat with 262%nat.
  rewrite (has_shape_index2 raw 300 412) by (assumption || lia). reflexivity.
Qed.

Lemma length_sample_distances nf pts idx : forall dists dists',
  sample_distances nf pts idx dists = Ok dists' ->
  List.length dists' = List.length dists.
Proof.
  induction idx as [| i idx IH]; intros dists dists' E; cbn [sample_distances] in E.
  - injection E as <-. reflexivity.
  - destruct (index2 pts (i * 4) 150) as [p |]; [| discriminate]. cbn [bind] in E.
    destruct (setitem dists i _) as [d1 |] eqn:E1; [| discriminate]. cbn [bind] in E.
    rewrite (IH _ _ E). eapply length_setitem; eassumption.
Qed.

Lemma length_estimate nf Qm raw dists dists' :
  estimate nf Qm raw dists = Ok dists' -> List.length dists' = List.length dists.
Proof.
  unfold estimate.
  destruct (reprojectImageTo3D (crop_valid (to_pixel_disparity raw)) Qm);
    [apply length_sample_distances | discriminate].
Qed.

Lemma astype_uint16_range nf v : (0 <= astype_uint16 nf v < 65536)%Z.
Proof. unfold astype_uint16. destruct v; apply Z.mod_pos_bound; lia. Qed.

Lemma Q_matrix_T265 : Q_matrix T265_baseline = Some Qm_T265.
Proof. reflexivity. Qed.

(** The focal length of line 583, in the reals. *)
Lemma stereo_focal_px_real :
  (IZR stereo_height_px / 2 / tan (90 * (PI / 180) / 2) = Q2R stereo_focal_px)%R.
Proof.
  replace (90 * (PI / 180) / 2)%R with (PI / 4)%R by field.
  rewrite tan_PI4. unfold stereo_focal_px, stereo_height_px, Q2R. cbn. field.
Qed.

Lemma Q2R_inject_Z z : Q2R (inject_Z z) = IZR z.
Proof. unfold Q2R, inject_Z. cbn [Qnum Qden]. rewrite Rinv_1. ring. Qed.

Lemma floor_norm_cm_finite x y z :
  floor_norm_cm (Fin x, Fin y, Fin z) =
  Some (Z.sqrt (Qfloor (10000 * (x * x + y * y + z * z)))).
Proof. reflexivity. Qed.

(** [floor_norm_cm] is the integer part of one hundred times the Euclidean
    norm taken in the reals. *)
Lemma floor_norm_cm_real (x y z : Q) :
  let n := Z.sqrt (Qfloor (10000 * (x * x + y * y + z * z))) in
  (IZR n <= 100 * sqrt (Q2R x * Q2R x + Q2R y * Q2R y + Q2R z * Q2R z) < IZR n + 1)%R.
Proof.
  set (s := (x * x + y * y + z * z)%Q).
  set (sr := (Q2R x * Q2R x + Q2R y * Q2R y + Q2R z * Q2R z)%R).
  set (m := Qfloor (10000 * s)). cbv zeta.
  assert (Hsr : Q2R (10000 * s) = (10000 * sr)%R).
  { unfold s, sr. rewrite Q2R_mult, !Q2R_plus, !Q2R_mult.
    change 10000%Q with (inject_Z 10000). rewrite Q2R_inject_Z. reflexivity. }
  assert (Hsr0 : (0 <= sr)%R) by (unfold sr; nra).
  assert (Hlo : (IZR m <= 10000 * sr)%R).
  { rewrite <- Hsr, <- Q2R_inject_Z. apply Qle_Rle, Qfloor_le. }
  assert (Hhi : (10000 * sr < IZR (m + 1))%R).
  { rewrite <- Hsr, <- Q2R_inject_Z. apply Qlt_Rlt, Qlt_floor. }
  assert (Hm : (0 <= m)%Z).
  { assert (H : (-1 < m)%Z) by (apply lt_IZR; rewrite plus_IZR in Hhi; lra). lia. }
  pose proof (Z.sqrt_spec m Hm) as [Hn1 Hn2].
  pose proof (Z.sqrt_nonneg m) as Hn0.
  set (n := Z.sqrt m) in *.
  assert (Hn0R : (0 <= IZR n)%R) by (apply IZR_le; exact Hn0).
  assert (H1 : (IZR n * IZR n <= 10000 * sr)%R).
  { rewrite <- mult_IZR.
    apply Rle_trans with (IZR m); [apply IZR_le; exact Hn1 | exact Hlo]. }
  assert (H2 : (10000 * sr < (IZR n + 1) * (IZR n + 1))%R).
  { apply Rlt_le_trans with (IZR (m + 1)); [exact Hhi |].
    rewrite <- (plus_IZR n 1), <- mult_IZR. apply IZR_le.
    replace (Z.succ n) with (n + 1)%Z in Hn2 by lia. lia. }
  assert (Hr : (100 * sqrt sr = sqrt (10000 * sr))%R).
  { replace (10000 * sr)%R with (100 * 100 * sr)%R by ring.
    rewrite sqrt_mult by lra. rewrite sqrt_square by lra. reflexivity. }
  rewrite Hr. split.
  - rewrite <- (sqrt_square (IZR n)) at 1 by exact Hn0R. apply sqrt_le_1; nra.
  - rewrite <- (sqrt_square (IZR n + 1)) by lra. apply sqrt_lt_1; nra.
Qed.

(** A point at 655.36 m or farther has a centimetre distance of at least
    [2^16]. *)
Lemma floor_norm_cm_far (x y z : Q) :
  ((65536 # 100) * (65536 # 100) <= x * x + y * y + z * z)%Q ->
  (65536 <= Z.sqrt (Qfloor (10000 * (x * x + y * y + z * z))))%Z.
Proof.
  intros H.
  assert (Hf : (65536 * 65536 <= Qfloor (10000 * (x * x + y * y + z * z)))%Z).
  { rewrite <- (Qfloor_Z (65536 * 65536)). apply Qfloor_resp_le.
    apply Qle_trans with (10000 * ((65536 # 100) * (65536 # 100)))%Q.
    - vm_compute. discriminate.
    - apply Qmult_le_l; [reflexivity | exact H]. }
  apply Z.sqrt_le_square; lia.
Qed.

(** The entries in exact arithmetic: on a 300 x 412 matcher output the
    model stores, in each of the 72 entries, the integer part of 100 times
    the exact Euclidean norm of the point reprojected from row 4 i, column
    150 of the cropped disparity, reduced modulo 2^16.  Every entry is an
    integer in [0, 65536).  This is a property of [floor_norm_cm] and
    [astype_uint16] as defined here; the script's float32 value can differ
    by one unit at an integer boundary, and its conversion of a value out
    of the range of [uint16] is the platform's. *)
Theorem distance_entries_uint16 (nf : Z) (Qm : Qmat) (raw : list (list Z))
    (dists : list Z) :
  has_shape 300 412 raw = true -> List.length dists = 72%nat ->
  exists profile,
    estimate nf Qm raw dists = Ok profile /\
    List.length profile = 72%nat /\
    forall i, (i < 72)%nat ->
      let p := reproject_pixel Qm 150 (i * 4) (inject_Z (pixel raw (i * 4) 262) / 16) in
      nth i profile 0%Z = astype_uint16 nf (floor_norm_cm p) /\
      (0 <= nth i profile 0 < 65536)%Z /\
      forall x y z, p = (Fin x, Fin y, Fin z) ->
        let n := Z.sqrt (Qfloor (10000 * (x * x + y * y + z * z))) in
        (IZR n <= 100 * sqrt (Q2R x * Q2R x + Q2R y * Q2R y + Q2R z * Q2R z)
           < IZR n + 1)%R /\
        nth i profile 0%Z = (n mod 65536)%Z /\
        (((65536 # 100) * (65536 # 100) <= x * x + y * y + z * z)%Q ->
         (nth i profile 0 = n - 65536 * (n / 65536) /\ 1 <= n / 65536 /\
          nth i profile 0 < n)%Z).
Proof.
  intros Hs Hl. exists (map (sampled_entry nf Qm raw) (seq 0 72)).
  split; [apply estimate_profile; assumption |].
  split; [rewrite length_map, length_seq; reflexivity |].
  intros i Hi p. rewrite nth_map_seq by exact Hi. fold p.
  change (sampled_entry nf Qm raw i) with (astype_uint16 nf (floor_norm_cm p)).
  split; [reflexivity |]. split; [apply astype_uint16_range |].
  intros x y z Hp n. rewrite Hp, floor_norm_cm_finite. fold n.
  split; [apply floor_norm_cm_real |].
  cbn [astype_uint16]. split; [reflexivity |].
  intros Hfar. apply floor_norm_cm_far in Hfar. fold n in Hfar.
  pose proof (Z.mod_eq n 65536 ltac:(lia)) as Hmod.
  assert (Hq : (1 <= n / 65536)%Z) by (apply Z.div_le_lower_bound; lia).
  lia.
Qed.

Lemma distance_entries_uint16_witness :
  has_shape 300 412 (raw_uniform 240) = true /\
  List.length (repeat 0%Z 72) = 72%nat /\
  exists profile,
    estimate 0 Qm_T265 (raw_uniform 240) (repeat 0%Z 72) = Ok profile /\
    List.length profile = 72%nat /\
    forall i, (i < 72)%nat ->
      let p := reproject_pixel Qm_T265 150 (i * 4)
                 (inject_Z (pixel (raw_uniform 240) (i * 4) 262) / 16) in
      nth i profile 0%Z = astype_uint16 0 (floor_norm_cm p) /\
      (0 <= nth i profile 0 < 65536)%Z /\
      forall x y z, p = (Fin x, Fin y, Fin z) ->
        let n := Z.sqrt (Qfloor (10000 * (x * x + y * y + z * z))) in
        (IZR n <= 100 * sqrt (Q2R x * Q2R x + Q2R y * Q2R y + Q2R z * Q2R z)
           < IZR n + 1)%R /\
        nth i profile 0%Z = (n mod 65536)%Z /\
        (((65536 # 100) * (65536 # 100) <= x * x + y * y + z * z)%Q ->
         (nth i profile 0 = n - 65536 * (n / 65536) /\ 1 <= n / 65536 /\
          nth i profile 0 < n)%Z).
Proof.
  split; [vm_compute; reflexivity |]. split; [reflexivity |].
  apply (distance_entries_uint16 0 Qm_T265 (raw_uniform 240) (repeat 0%Z 72));
    vm_compute; reflexivity.
Defined.

(** In the model a point 700 m away is stored as 70000 - 65536 = 4464 cm. *)
Example wrap_around_700_m :
  astype_uint16 0 (floor_norm_cm (Fin 700, Fin 0, Fin 0)) = 4464%Z.
Proof. vm_compute. reflexivity. Qed.

(** *** Disparity below the matcher's threshold *)




(** A zero disparity reprojects to a non-finite point, and the stored entry
    is whatever the platform converts it to. *)
Example zero_disparity_entry nf :
  sampled_entry nf Qm_T265 (raw_uniform 0) 0 = (nf mod 65536)%Z.
Proof. reflexivity. Qed.

(** *** Which pixels the profile reads *)

(** The profile depends on the matcher output only through rows
    0, 4, ..., 284 of its column 262. *)
Lemma estimate_single_column nf Qm raw raw' dists :
  has_shape 300 412 raw = true -> has_shape 300 412 raw' = true ->
  List.length dists = 72%nat ->
  (forall i, (i < 72)%nat -> pixel raw (i * 4) 262 = pixel raw' (i * 4) 262) ->
  estimate nf Qm raw dists = estimate nf Qm raw' dists.
Proof.
  intros Hs Hs' Hl Hp. rewrite !estimate_profile by assumption.
  f_equal. apply map_ext_in. intros i Hi. apply in_seq in Hi.
  unfold sampled_entry. rewrite Hp by lia. reflexivity.
Qed.

Lemma pixel_repeat_row row r c :
  (r < 300)%nat -> pixel (repeat row 300) r c = nth c row 0%Z.
Proof. intros H. unfold pixel. rewrite nth_repeat_lt by exact H. reflexivity. Qed.

(** C6 (the code at the failing input): a scene with a near obstacle over
    the whole left half of the image and a far background on the right
    half yields the same 72 entries as the far background alone.  The 72
    samples are rows 0, 4, ..., 284 of the single image column 150, not 72
    columns from left to right. *)
Theorem left_obstacle_not_seen (nf : Z) (Qm : Qmat) :
  estimate nf Qm raw_left_obstacle (repeat 0%Z 72) =
  estimate nf Qm (raw_uniform 320) (repeat 0%Z 72).
Proof.
  apply estimate_single_column; try (vm_compute; reflexivity).
  intros i Hi. unfold raw_left_obstacle, raw_uniform.
  rewrite !pixel_repeat_row by lia. reflexivity.
Qed.

End DepthFacts.

(** ** Periodic senders *)

Section SenderFacts.

Lemma length_centre dists :
  List.length dists = 72%nat -> List.length (centre dists) = 5%nat.
Proof.
  intros H. unfold centre, slice. rewrite length_firstn, length_skipn, H. reflexivity.
Qed.

(** C5 (amended): on a 72-entry distance array the distance report carries
    minimum range 10, maximum range 65 and, as current distance, the mean of
    entries 33 to 37 truncated to an integer: for non-negative entries,
    the largest integer not above the mean.  On the array that is 30
    everywhere it is exactly 30. *)
Theorem distance_report_truncated_mean (st : state) :
  List.length (distances st) = 72%nat ->
  let c := Z.quot (sum_Z (centre (distances st))) 5 in
  send_distance_sensor_message st =
    Ok (st, [Send (distance_sensor 0 10 65 c 0 0 0 0)]) /\
  (Forall (fun d => 0 <= d)%Z (distances st) ->
   (inject_Z c <= mean_Q (centre (distances st)))%Q /\
   (mean_Q (centre (distances st)) < inject_Z c + 1)%Q) /\
  (distances st = repeat 30%Z 72 -> c = 30%Z).
Proof.
  intros Hl c. pose proof (length_centre _ Hl) as Hc.
  split; [| split].
  - unfold send_distance_sensor_message, int_mean. fold (centre (distances st)).
    destruct (centre (distances st)) as [| a l] eqn:E; [discriminate |].
    rewrite Hc. reflexivity.
  - intros Hpos.
    assert (Hsum : (0 <= sum_Z (centre (distances st)))%Z).
    { apply sum_Z_nonneg. unfold centre, slice.
      apply Forall_firstn, Forall_skipn, Hpos. }
    unfold mean_Q. rewrite Hc. set (s := sum_Z _) in *.
    assert (Hq : c = (s / 5)%Z) by (unfold c; apply Z.quot_div_nonneg; lia).
    rewrite Hq. pose proof (Z.div_mod s 5 ltac:(lia)) as Hdm.
    pose proof (Z.mod_pos_bound s 5 ltac:(lia)) as Hmb.
    clearbody s. clear c Hq.
    unfold Qle, Qlt, Qdiv, Qmult, Qinv, Qplus, inject_Z. cbn. lia.
  - intros E. unfold c, centre. rewrite E. reflexivity.
Qed.

Lemma distance_report_truncated_mean_witness :
  let st := set_distances (repeat 30%Z 72) (initial_state (source_config false None)) in
  List.length (distances st) = 72%nat /\
  let c := Z.quot (sum_Z (centre (distances st))) 5 in
  send_distance_sensor_message st =
    Ok (st, [Send (distance_sensor 0 10 65 c 0 0 0 0)]) /\
  (Forall (fun d => 0 <= d)%Z (distances st) ->
   (inject_Z c <= mean_Q (centre (distances st)))%Q /\
   (mean_Q (centre (distances st)) < inject_Z c + 1)%Q) /\
  (distances st = repeat 30%Z 72 -> c = 30%Z).
Proof.
  intros st. split; [reflexivity |].
  apply (distance_report_truncated_mean st). reflexivity.
Defined.

(** With entries 33 to 36 at 30 and entry 37 at 31 the mean is 30.2 and
    the report carries 30. *)
Lemma distance_report_not_the_mean :
  let st := set_distances (repeat 30%Z 37 ++ 31%Z :: repeat 30%Z 34)
              (initial_state (source_config false None)) in
  List.length (distances st) = 72%nat /\
  send_distance_sensor_message st =
    Ok (st, [Send (distance_sensor 0 10 65 30 0 0 0 0)]) /\
  (mean_Q (centre (distances st)) == 151 # 5)%Q /\
  ~ (inject_Z 30 == mean_Q (centre (distances st)))%Q.
Proof.
  intros st. split; [reflexivity |]. split; [reflexivity |].
  split; [reflexivity |]. intros H. vm_compute in H. discriminate H.
Qed.

(** ** Before the first frame *)

Lemma unpublished_initial cfg : unpublished (initial_state cfg).
Proof. repeat split. Qed.

Lemma senders_unpublished st :
  unpublished st ->
  send_vision_position_message st = Ok (st, []) /\
  send_confidence_level_dummy_message st = Ok (st, []) /\
  send_distance_sensor_message st =
    Ok (st, [Send (distance_sensor 0 10 65 0 0 0 0 0)]).
Proof.
  intros (Hd & HH & Hz). repeat split.
  - unfold send_vision_position_message. rewrite HH. reflexivity.
  - unfold send_confidence_level_dummy_message. rewrite Hd. reflexivity.
  - unfold send_distance_sensor_message. rewrite Hz. reflexivity.
Qed.

Lemma step_unpublished cfg mnt Qm nf ev st :
  is_frames ev = false -> unpublished st ->
  exists st' out, step cfg mnt Qm nf ev st = Ok (st', out) /\ unpublished st'.
Proof.
  intros Hev Hu. destruct (senders_unpublished st Hu) as (Hv & Hc & Hd).
  destruct ev as [| | | yaw | line | now pose raw]; cbn [step]; try discriminate.
  - unfold run_job. rewrite Hv. eauto.
  - unfold run_job. rewrite Hc. eauto.
  - unfold run_job. rewrite Hd. eauto.
  - destruct (compass_enabled cfg =? 1)%Z; [| eauto].
    unfold att_msg_callback.
    destruct (heading_north_yaw st); eexists _, _; (split; [reflexivity | exact Hu]).
  - destruct (scale_thread_alive st); [| eauto].
    destruct line as [s |]; cbn [scale_update]; eexists _, _;
      (split; [reflexivity | exact Hu]).
Qed.

(** C3 (amended): at every tick fired before any frame has been processed,
    whatever listeners and operator input ran in between, no sender fails;
    the pose report and the confidence report send nothing and leave the
    state unchanged; the distance report sends one message, with current
    distance 0 computed from the zero-initialised distance array. *)
Theorem senders_before_first_frame (cfg : config) (mnt : mount) (Qm : Qmat) (nf : Z)
    (evs : list event) :
  no_frames evs = true ->
  exists st out,
    run cfg mnt Qm nf evs (initial_state cfg) = Ok (st, out) /\
    send_vision_position_message st = Ok (st, []) /\
    send_confidence_level_dummy_message st = Ok (st, []) /\
    send_distance_sensor_message st =
      Ok (st, [Send (distance_sensor 0 10 65 0 0 0 0 0)]).
Proof.
  intros Hnf.
  assert (G : forall st0, unpublished st0 ->
            exists st out, run cfg mnt Qm nf evs st0 = Ok (st, out) /\ unpublished st).
  { induction evs as [| ev evs IH]; intros st0 Hu.
    - exists st0, []. split; [reflexivity | exact Hu].
    - cbn [no_frames forallb] in Hnf. apply andb_true_iff in Hnf as [Hev Hrest].
      apply negb_true_iff in Hev.
      destruct (step_unpublished cfg mnt Qm nf ev st0 Hev Hu) as (st1 & out1 & E1 & Hu1).
      destruct (IH Hrest st1 Hu1) as (st2 & out2 & E2 & Hu2).
      exists st2, (out1 ++ out2). split; [| exact Hu2].
      cbn [run]. rewrite E1. cbn [bind fst snd]. rewrite E2. reflexivity. }
  destruct (G _ (unpublished_initial cfg)) as (st & out & E & Hu).
  exists st, out. split; [exact E | apply senders_unpublished, Hu].
Qed.

Lemma senders_before_first_frame_witness :
  let cfg := source_config true None in
  let evs := [Vision_tick; Confidence_tick; Operator_line (Some 2%R); Distance_tick] in
  no_frames evs = true /\
  exists st out,
    run cfg forward_mount Qm_T265 0 evs (initial_state cfg) = Ok (st, out) /\
    send_vision_position_message st = Ok (st, []) /\
    send_confidence_level_dummy_message st = Ok (st, []) /\
    send_distance_sensor_message st =
      Ok (st, [Send (distance_sensor 0 10 65 0 0 0 0 0)]).
Proof.
  intros cfg evs. split; [reflexivity |].
  apply (senders_before_first_frame cfg forward_mount Qm_T265 0 evs). reflexivity.
Defined.

(** The distance tick in the initial state does send. *)
Lemma distance_report_sent_before_first_frame :
  let st := initial_state (source_config false None) in
  unpublished st /\
  exists out,
    send_distance_sensor_message st = Ok (st, out) /\
    sends out = [distance_sensor 0 10 65 0 0 0 0 0] /\
    sends out <> [].
Proof.
  intros st. split; [apply unpublished_initial |].
  eexists. split; [reflexivity |]. split; [reflexivity | discriminate].
Qed.

(** ** Confidence notifications *)

Lemma confidence_level_name c :
  (c < 4)%nat -> exists name, index pose_data_confidence_level c = Ok name.
Proof.
  intros H. do 4 (destruct c as [| c]; [eexists; reflexivity |]). lia.
Qed.

Lemma count_statustext_app o1 o2 :
  count_statustext (o1 ++ o2) = (count_statustext o1 + count_statustext o2)%nat.
Proof. unfold count_statustext. rewrite filter_app, length_app. reflexivity. Qed.

(** A tick at the level last reported sends the numeric report only. *)
Lemma confidence_tick_same d st :
  (tracker_confidence d < 4)%nat ->
  current_confidence st = Some (tracker_confidence d) ->
  exists out,
    send_confidence_level_dummy_message (set_data (Some d) st) =
      Ok (set_data (Some d) st, out) /\
    count_statustext out = 0%nat.
Proof.
  intros Hc Hcur. destruct (confidence_level_name _ Hc) as [name En].
  unfold send_confidence_level_dummy_message. cbn [set_data data current_confidence].
  rewrite En, Hcur, Nat.eqb_refl. cbn [bind negb]. eexists; split; reflexivity.
Qed.

(** A tick at another level sends one text notification and records the
    new level. *)
Lemma confidence_tick_changed d st a :
  (tracker_confidence d < 4)%nat ->
  current_confidence st = Some a -> a <> tracker_confidence d ->
  exists out,
    send_confidence_level_dummy_message (set_data (Some d) st) =
      Ok (set_current_confidence (Some (tracker_confidence d)) (set_data (Some d) st),
          out) /\
    count_statustext out = 1%nat.
Proof.
  intros Hc Hcur Hne. destruct (confidence_level_name _ Hc) as [name En].
  unfold send_confidence_level_dummy_message. cbn [set_data data current_confidence].
  rewrite En, Hcur. apply Nat.eqb_neq in Hne. rewrite Hne. cbn [bind negb].
  eexists; split; reflexivity.
Qed.

(** The very first tick with a pose sample also sends a text notification:
    no level has been reported yet. *)
Lemma confidence_tick_first d st :
  (tracker_confidence d < 4)%nat -> current_confidence st = None ->
  exists out,
    send_confidence_level_dummy_message (set_data (Some d) st) =
      Ok (set_current_confidence (Some (tracker_confidence d)) (set_data (Some d) st),
          out) /\
    count_statustext out = 1%nat.
Proof.
  intros Hc Hcur. destruct (confidence_level_name _ Hc) as [name En].
  unfold send_confidence_level_dummy_message. cbn [set_data data current_confidence].
  rewrite En, Hcur. cbn [bind]. eexists; split; reflexivity.
Qed.

Lemma confidence_ticks_constant c ds : forall st,
  (c < 4)%nat -> current_confidence st = Some c ->
  Forall (fun d => tracker_confidence d = c) ds ->
  exists st' out,
    confidence_ticks ds st = Ok (st', out) /\
    current_confidence st' = Some c /\ count_statustext out = 0%nat.
Proof.
  induction ds as [| d ds IH]; intros st Hc Hcur Hall.
  - exists st, []. repeat split; assumption.
  - inversion Hall as [| ? ? Hd Hds]; subst.
    destruct (confidence_tick_same d st Hc Hcur) as (out1 & E1 & C1).
    destruct (IH (set_data (Some d) st) Hc Hcur Hds) as (st2 & out2 & E2 & Cur2 & C2).
    exists st2, (out1 ++ out2). cbn [confidence_ticks].
    rewrite E1. cbn [bind fst snd]. rewrite E2. cbn [bind fst snd].
    rewrite count_statustext_app, C1, C2. repeat split; assumption.
Qed.

Lemma confidence_ticks_app ds1 ds2 st st1 out1 :
  confidence_ticks ds1 st = Ok (st1, out1) ->
  confidence_ticks (ds1 ++ ds2) st =
  (r <- confidence_ticks ds2 st1 ;; Ok (fst r, out1 ++ snd r)).
Proof.
  revert st st1 out1. induction ds1 as [| d ds1 IH]; intros st st1 out1 E.
  - cbn in E. injection E as <- <-. cbn [app].
    destruct (confidence_ticks ds2 st) as [[s o] |]; reflexivity.
  - cbn [confidence_ticks app] in *.
    destruct (send_confidence_level_dummy_message (set_data (Some d) st))
      as [[s o] | e]; [| discriminate].
    cbn [bind fst snd] in *.
    destruct (confidence_ticks ds1 s) as [[s' o'] | e] eqn:E1; [| discriminate].
    cbn [bind fst snd] in E. injection E as <- <-.
    rewrite (IH s s' o' E1).
    destruct (confidence_ticks ds2 s') as [[s2 o2] |]; cbn [bind fst snd];
      [rewrite app_assoc |]; reflexivity.
Qed.

(** C4 (amended): starting with level [a] as the level last reported, any
    number of confidence ticks that see level [a] followed by one or more
    ticks that see another level [b] emit exactly one text notification in
    all, however many ticks follow the change; the level recorded at the
    end is [b]. *)
Theorem one_notification_per_change (a b : nat) (ds_a ds_b : list pose_data)
    (st : state) :
  (a < 4)%nat -> (b < 4)%nat -> a <> b ->
  current_confidence st = Some a ->
  Forall (fun d => tracker_confidence d = a) ds_a ->
  Forall (fun d => tracker_confidence d = b) ds_b ->
  ds_b <> [] ->
  exists st' out,
    confidence_ticks (ds_a ++ ds_b) st = Ok (st', out) /\
    count_statustext out = 1%nat /\
    current_confidence st' = Some b.
Proof.
  intros Ha Hb Hab Hcur Hall_a Hall_b Hne.
  destruct (confidence_ticks_constant a ds_a st Ha Hcur Hall_a)
    as (st1 & out1 & E1 & Cur1 & C1).
  destruct ds_b as [| d ds_b]; [contradiction |].
  inversion Hall_b as [| ? ? Hd Hds]; subst.
  destruct (confidence_tick_changed d st1 a Hb Cur1 Hab) as (out2 & E2 & C2).
  destruct (confidence_ticks_constant (tracker_confidence d) ds_b
              (set_current_confidence (Some (tracker_confidence d))
                 (set_data (Some d) st1))
              Hb eq_refl Hds) as (st3 & out3 & E3 & Cur3 & C3).
  exists st3, (out1 ++ out2 ++ out3).
  rewrite (confidence_ticks_app _ _ _ _ _ E1). cbn [confidence_ticks].
  rewrite E2. cbn [bind fst snd]. rewrite E3. cbn [bind fst snd].
  rewrite !count_statustext_app, C1, C2, C3. repeat split; assumption.
Qed.

Lemma one_notification_per_change_witness :
  let st := set_current_confidence (Some 1%nat)
              (initial_state (source_config false None)) in
  let ds_a := [still_pose 1; still_pose 1] in
  let ds_b := [still_pose 2; still_pose 2; still_pose 2] in
  (1 < 4)%nat /\ (2 < 4)%nat /\ 1%nat <> 2%nat /\
  current_confidence st = Some 1%nat /\
  Forall (fun d => tracker_confidence d = 1%nat) ds_a /\
  Forall (fun d => tracker_confidence d = 2%nat) ds_b /\
  ds_b <> [] /\
  exists st' out,
    confidence_ticks (ds_a ++ ds_b) st = Ok (st', out) /\
    count_statustext out = 1%nat /\
    current_confidence st' = Some 2%nat.
Proof.
  intros st ds_a ds_b.
  assert (H1 : (1 < 4)%nat) by lia.
  assert (H2 : (2 < 4)%nat) by lia.
  assert (H3 : 1%nat <> 2%nat) by discriminate.
  assert (H4 : current_confidence st = Some 1%nat) by reflexivity.
  assert (H5 : Forall (fun d => tracker_confidence d = 1%nat) ds_a)
    by (repeat constructor).
  assert (H6 : Forall (fun d => tracker_confidence d = 2%nat) ds_b)
    by (repeat constructor).
  assert (H7 : ds_b <> []) by discriminate.
  repeat (split; [assumption |]).
  apply (one_notification_per_change 1 2 ds_a ds_b st H1 H2 H3 H4 H5 H6 H7).
Defined.

(** Counted from start-up, where no level has been reported yet, the first
    tick sends a notification of its own: two ticks at Low and then two at
    Medium, one change of level, emit two notifications. *)
Lemma two_notifications_from_startup :
  let st := initial_state (source_config false None) in
  let ds_a := [still_pose 1; still_pose 1] in
  let ds_b := [still_pose 2; still_pose 2] in
  current_confidence st = None /\
  Forall (fun d => tracker_confidence d = 1%nat) ds_a /\
  Forall (fun d => tracker_confidence d = 2%nat) ds_b /\
  exists st' out,
    confidence_ticks (ds_a ++ ds_b) st = Ok (st', out) /\
    count_statustext out = 2%nat /\
    count_statustext out <> 1%nat.
Proof.
  intros st ds_a ds_b.
  split; [reflexivity |].
  split; [repeat constructor |]. split; [repeat constructor |].
  eexists _, _. split; [reflexivity |]. split; [reflexivity | discriminate].
Qed.

End SenderFacts.

(** ** Listeners, operator input and invariants of the running system *)

Section SystemFacts.
Local Open Scope R_scope.

(** Every ATTITUDE message stores its yaw, the first one and the later
    ones alike. *)
Lemma att_msg_callback_heading yaw st :
  heading_north_yaw (fst (att_msg_callback yaw st)) = Some yaw.
Proof. unfold att_msg_callback. destruct (heading_north_yaw st); reflexivity. Qed.

(** C1 (the code at the failing input): with the compass enabled, after
    the ATTITUDE messages with yaw 0 and then yaw 1 the stored heading is 1,
    not the first sample 0, and the next pose is realigned by a yaw of 1. *)
Theorem heading_reference_overwritten (mnt : mount) (Qm : Qmat) (nf : Z) :
  let cfg := compass_config in
  exists st,
    run cfg mnt Qm nf [Attitude 0; Attitude 1] (initial_state cfg) =
      Ok (st, [Log_first_attitude (degrees 0); Log_attitude (degrees 1)]) /\
    heading_north_yaw st = Some 1 /\
    heading_north_yaw st <> Some 0 /\
    forall now d,
      process_pose cfg mnt now d st =
      Ok (set_pose now d
            (dot (dot (H_aeroRef_T265Ref mnt)
                      (dot (T265_pose d 1) (H_T265body_aeroBody mnt)))
                 (euler_matrix 0 0 1))
            st).
Proof.
  intros cfg. eexists. split; [reflexivity |].
  split; [reflexivity |]. split.
  - cbn [heading_north_yaw set_heading_north_yaw]. intros E.
    injection E as E'. lra.
  - intros now d. rewrite process_pose_value. reflexivity.
Qed.

(** The scale factor after one event: an accepted operator line replaces
    it by the number typed, nothing else touches it. *)
Lemma step_scale_factor cfg mnt Qm nf ev st st' out :
  step cfg mnt Qm nf ev st = Ok (st', out) ->
  scale_factor st' =
  match ev with
  | Operator_line (Some s) => if scale_thread_alive st then s else scale_factor st
  | _ => scale_factor st
  end.
Proof.
  destruct ev as [| | | yaw | line | now pose raw]; cbn [step].
  - unfold run_job, send_vision_position_message.
    destruct (H_aeroRef_aeroBody st) as [H |];
      [destruct (euler_from_matrix H) as [[? ?] ?] |];
      intros E; injection E as <- <-; reflexivity.
  - unfold run_job, send_confidence_level_dummy_message.
    destruct (data st) as [d |]; [| intros E; injection E as <- <-; reflexivity].
    destruct (index pose_data_confidence_level (tracker_confidence d));
      cbn [bind]; [| intros E; injection E as <- <-; reflexivity].
    destruct (match current_confidence st with Some c' => _ | None => _ end);
      intros E; injection E as <- <-; reflexivity.
  - unfold run_job, send_distance_sensor_message.
    destruct (int_mean _); cbn [bind]; intros E; injection E as <- <-; reflexivity.
  - destruct (compass_enabled cfg =? 1)%Z;
      [unfold att_msg_callback; destruct (heading_north_yaw st) |];
      intros E; injection E as <- <-; reflexivity.
  - destruct line as [s |]; destruct (scale_thread_alive st); cbn [scale_update];
      intros E; injection E as <- <-; reflexivity.
  - unfold process_frames.
    assert (Hp : forall d st1, process_pose cfg mnt now d st = Ok st1 ->
                   scale_factor st1 = scale_factor st).
    { intros d st1. rewrite process_pose_value. cbv zeta.
      destruct (compass_enabled cfg =? 1)%Z; [destruct (heading_north_yaw st) |];
        intros E; try discriminate; injection E as <-; reflexivity. }
    destruct pose as [d |].
    + destruct (process_pose cfg mnt now d st) as [st1 |] eqn:E1; [| discriminate].
      cbn [bind].
      destruct (estimate nf Qm raw (distances st1)) as [ds |]; [| discriminate].
      cbn [bind]. intros E; injection E as <- <-. cbn [set_distances scale_factor].
      apply (Hp d st1 E1).
    + cbn [bind].
      destruct (estimate nf Qm raw (distances st)) as [ds |]; [| discriminate].
      cbn [bind]. intros E; injection E as <- <-. reflexivity.
Qed.

(** With the operator thread running, a negative line becomes the scale
    factor. *)
Lemma scale_factor_made_negative :
  let cfg := source_config true None in
  exists st out,
    run cfg forward_mount Qm_T265 0 [Operator_line (Some (-1))] (initial_state cfg) =
      Ok (st, out) /\
    scale_factor st = -1 /\
    ~ (0 < scale_factor st).
Proof.
  intros cfg.
  exists (set_scale_factor (-1) (initial_state cfg)), [Log_new_scale (-1)].
  split; [reflexivity |]. split; [reflexivity |].
  cbn [scale_factor set_scale_factor]. lra.
Qed.

(** C9 (amended): the scale factor is 1 at start-up and an accepted
    operator line replaces it by the number typed, with no check of its
    sign; it is therefore strictly positive in every state the system
    reaches as long as every number the operator types is strictly
    positive. *)
Theorem scale_factor_positive (cfg : config) (mnt : mount) (Qm : Qmat) (nf : Z)
    (evs : list event) (st : state) (out : list output) :
  Forall positive_line evs ->
  run cfg mnt Qm nf evs (initial_state cfg) = Ok (st, out) ->
  0 < scale_factor st.
Proof.
  intros Hpos.
  assert (G : forall st0 st1 out1, 0 < scale_factor st0 ->
            run cfg mnt Qm nf evs st0 = Ok (st1, out1) -> 0 < scale_factor st1).
  { induction Hpos as [| ev evs Hev Hevs IH]; intros st0 st1 out1 H0 E.
    - cbn [run] in E. injection E as <- <-. exact H0.
    - cbn [run] in E.
      destruct (step cfg mnt Qm nf ev st0) as [[sa oa] |] eqn:Es; [| discriminate].
      cbn [bind fst snd] in E.
      destruct (run cfg mnt Qm nf evs sa) as [[sb ob] |] eqn:Er; [| discriminate].
      cbn [bind fst snd] in E. injection E as <- <-.
      apply (IH sa sb ob); [| exact Er].
      rewrite (step_scale_factor _ _ _ _ _ _ _ _ Es).
      destruct ev as [| | | yaw | [s |] | now pose raw]; try exact H0.
      destruct (scale_thread_alive st0); [exact Hev | exact H0]. }
  intros E. apply (G (initial_state cfg) st out); [| exact E].
  cbn [initial_state scale_factor]. lra.
Qed.

Lemma scale_factor_positive_witness :
  let cfg := source_config true None in
  let st := set_scale_thread_alive false (set_scale_factor 2 (initial_state cfg)) in
  Forall positive_line [Operator_line (Some 2); Vision_tick; Operator_line None] /\
  run cfg forward_mount Qm_T265 0 [Operator_line (Some 2); Vision_tick; Operator_line None]
    (initial_state cfg) = Ok (st, [Log_new_scale 2]) /\
  0 < scale_factor st.
Proof.
  intros cfg st.
  assert (Hpos : Forall positive_line
                   [Operator_line (Some 2); Vision_tick; Operator_line None]).
  { repeat constructor. cbn [positive_line]. lra. }
  assert (Hrun : run cfg forward_mount Qm_T265 0
                   [Operator_line (Some 2); Vision_tick; Operator_line None]
                   (initial_state cfg) = Ok (st, [Log_new_scale 2])) by reflexivity.
  split; [exact Hpos |]. split; [exact Hrun |].
  exact (scale_factor_positive cfg forward_mount Qm_T265 0 _ st _ Hpos Hrun).
Defined.

(** No event changes the length of the distance array: the senders and
    listeners do not write it and the loop assigns entries in place. *)
Lemma step_length cfg mnt Qm nf ev st st' out :
  step cfg mnt Qm nf ev st = Ok (st', out) ->
  List.length (distances st') = List.length (distances st).
Proof.
  destruct ev as [| | | yaw | line | now pose raw]; cbn [step].
  - unfold run_job, send_vision_position_message.
    destruct (H_aeroRef_aeroBody st) as [H |];
      [destruct (euler_from_matrix H) as [[? ?] ?] |];
      intros E; injection E as <- <-; reflexivity.
  - unfold run_job, send_confidence_level_dummy_message.
    destruct (data st) as [d |]; [| intros E; injection E as <- <-; reflexivity].
    destruct (index pose_data_confidence_level (tracker_confidence d));
      cbn [bind]; [| intros E; injection E as <- <-; reflexivity].
    destruct (match current_confidence st with Some c' => _ | None => _ end);
      intros E; injection E as <- <-; reflexivity.
  - unfold run_job, send_distance_sensor_message.
    destruct (int_mean _); cbn [bind]; intros E; injection E as <- <-; reflexivity.
  - destruct (compass_enabled cfg =? 1)%Z;
      [unfold att_msg_callback; destruct (heading_north_yaw st) |];
      intros E; injection E as <- <-; reflexivity.
  - destruct (scale_thread_alive st); [destruct line |]; cbn [scale_update];
      intros E; injection E as <- <-; reflexivity.
  - unfold process_frames.
    assert (Hp : forall d st1, process_pose cfg mnt now d st = Ok st1 ->
                   distances st1 = distances st).
    { intros d st1. rewrite process_pose_value. cbv zeta.
      destruct (compass_enabled cfg =? 1)%Z; [destruct (heading_north_yaw st) |];
        intros E; try discriminate; injection E as <-; reflexivity. }
    destruct pose as [d |].
    + destruct (process_pose cfg mnt now d st) as [st1 |] eqn:E1; [| discriminate].
      cbn [bind].
      destruct (estimate nf Qm raw (distances st1)) as [ds |] eqn:E2; [| discriminate].
      cbn [bind]. intros E; injection E as <- <-. cbn [set_distances distances].
      rewrite (length_estimate _ _ _ _ _ E2). f_equal. apply (Hp d st1 E1).
    + cbn [bind].
      destruct (estimate nf Qm raw (distances st)) as [ds |] eqn:E2; [| discriminate].
      cbn [bind]. intros E; injection E as <- <-. cbn [set_distances distances].
      apply (length_estimate _ _ _ _ _ E2).
Qed.

(** A frame set with a pose sample, offset and compass corrections off,
    on a 300 x 412 matcher output: the pose of line 645 is published as it
    is and the distance array is replaced by the sampled profile. *)
Lemma step_frames_uncorrected cfg mnt Qm nf now d raw st :
  body_offset_enabled cfg <> 1%Z -> compass_enabled cfg <> 1%Z ->
  has_shape 300 412 raw = true -> List.length (distances st) = 72%nat ->
  step cfg mnt Qm nf (Frames now (Some d) raw) st =
  Ok (set_distances (map (sampled_entry nf Qm raw) (seq 0 72))
        (set_pose now d (uncorrected_pose mnt d (scale_factor st)) st), []).
Proof.
  intros Hoff Hc Hs Hl. cbn [step]. unfold process_frames.
  rewrite process_pose_value. cbv zeta. unfold with_offset.
  apply Z.eqb_neq in Hoff. apply Z.eqb_neq in Hc. rewrite Hoff, Hc.
  cbn [bind]. rewrite (estimate_profile nf Qm raw _ Hs) by exact Hl.
  reflexivity.
Qed.

Lemma run_reachable cfg mnt Qm nf evs : forall st st' out,
  reachable cfg mnt Qm nf st -> run cfg mnt Qm nf evs st = Ok (st', out) ->
  reachable cfg mnt Qm nf st'.
Proof.
  induction evs as [| ev evs IH]; intros st st' out Hr E; cbn [run] in E.
  - injection E as <- <-. exact Hr.
  - destruct (step cfg mnt Qm nf ev st) as [[sa oa] |] eqn:Es; [| discriminate].
    cbn [bind fst snd] in E.
    destruct (run cfg mnt Qm nf evs sa) as [[sb ob] |] eqn:Er; [| discriminate].
    cbn [bind fst snd] in E. injection E as <- <-.
    apply (IH sa sb ob); [| exact Er].
    apply (reachable_step cfg mnt Qm nf ev st sa oa Hr Es).
Qed.

(** A short run from start-up: an ATTITUDE message (ignored, the compass
    is off), the operator typing 2 (taken as the new scale factor only when
    scale calibration is on), then a frame set with a pose sample. *)
Lemma run_sample_events (calib : bool) :
  let cfg := source_config calib None in
  let d := still_pose 3 in
  let raw := raw_uniform 320 in
  let st1 := if calib then set_scale_factor 2 (initial_state cfg)
             else initial_state cfg in
  let st2 := set_distances (map (sampled_entry 0 Qm_T265 raw) (seq 0 72))
               (set_pose 5 d (uncorrected_pose forward_mount d (scale_factor st1)) st1) in
  run cfg forward_mount Qm_T265 0
      [Attitude 1; Operator_line (Some 2); Frames 5 (Some d) raw]
      (initial_state cfg) =
    Ok (st2, if calib then [Log_new_scale 2] else []) /\
  reachable cfg forward_mount Qm_T265 0 st2.
Proof.
  intros cfg d raw st1 st2.
  assert (Hs : has_shape 300 412 raw = true) by (vm_compute; reflexivity).
  assert (Hoff : body_offset_enabled cfg <> 1%Z) by (intros E; discriminate E).
  assert (Hc : compass_enabled cfg <> 1%Z) by (intros E; discriminate E).
  assert (Hl : List.length (distances st1) = 72%nat)
    by (unfold st1; destruct calib; reflexivity).
  pose proof (step_frames_uncorrected cfg forward_mount Qm_T265 0 5 d raw st1
                Hoff Hc Hs Hl) as E3.
  assert (Er : run cfg forward_mount Qm_T265 0
                 [Attitude 1; Operator_line (Some 2); Frames 5 (Some d) raw]
                 (initial_state cfg) =
               Ok (st2, if calib then [Log_new_scale 2] else [])).
  { unfold st2. clearbody d raw. unfold st1 in *. clear st1 st2.
    destruct calib.
    - assert (E1 : step cfg forward_mount Qm_T265 0 (Attitude 1) (initial_state cfg) =
                   Ok (initial_state cfg, [])) by reflexivity.
      assert (E2 : step cfg forward_mount Qm_T265 0 (Operator_line (Some 2))
                     (initial_state cfg) =
                   Ok (set_scale_factor 2 (initial_state cfg), [Log_new_scale 2]))
        by reflexivity.
      cbn [run]. rewrite E1. cbn [bind fst snd]. rewrite E2. cbn [bind fst snd].
      rewrite E3. reflexivity.
    - assert (E1 : step cfg forward_mount Qm_T265 0 (Attitude 1) (initial_state cfg) =
                   Ok (initial_state cfg, [])) by reflexivity.
      assert (E2 : step cfg forward_mount Qm_T265 0 (Operator_line (Some 2))
                     (initial_state cfg) =
                   Ok (initial_state cfg, [])) by reflexivity.
      cbn [run]. rewrite E1. cbn [bind fst snd]. rewrite E2. cbn [bind fst snd].
      rewrite E3. reflexivity. }
  split; [exact Er |].
  apply (run_reachable _ _ _ _ _ _ _ _ (reachable_init _ _ _ _) Er).
Qed.

(** X1: the distance array has exactly 72 entries in every state the
    running system can reach. *)
Theorem distances_length_invariant (cfg : config) (mnt : mount) (Qm : Qmat) (nf : Z)
    (st : state) :
  reachable cfg mnt Qm nf st -> List.length (distances st) = 72%nat.
Proof.
  induction 1 as [| ev st st' out Hr IH Hs].
  - reflexivity.
  - rewrite (step_length _ _ _ _ _ _ _ _ Hs). exact IH.
Qed.

Lemma distances_length_invariant_witness :
  let cfg := source_config true None in
  let d := still_pose 3 in
  let raw := raw_uniform 320 in
  let st1 := set_scale_factor 2 (initial_state cfg) in
  let st2 := set_distances (map (sampled_entry 0 Qm_T265 raw) (seq 0 72))
               (set_pose 5 d (uncorrected_pose forward_mount d (scale_factor st1)) st1) in
  run cfg forward_mount Qm_T265 0
      [Attitude 1; Operator_line (Some 2); Frames 5 (Some d) raw]
      (initial_state cfg) = Ok (st2, [Log_new_scale 2]) /\
  reachable cfg forward_mount Qm_T265 0 st2 /\
  List.length (distances st2) = 72%nat.
Proof.
  intros cfg d raw st1 st2.
  destruct (run_sample_events true) as [Er Hr].
  split; [exact Er |]. split; [exact Hr |].
  exact (distances_length_invariant cfg forward_mount Qm_T265 0 st2 Hr).
Defined.

(** The obstacle-distance message carries the 72-entry array with angle
    offset -45 and increment 1.25 degrees, so entry [i] has the nominal angle
    [-45 + 1.25 i]: -45 degrees for entry 0 and 43.75 degrees for entry 71. *)
Lemma obstacle_message_angles (st : state) (i : nat) :
  exists m,
    send_obstacle_distance_message st = Ok (st, [Send m]) /\
    sector_angle m i = Some (- (45 # 1) + inject_Z (Z.of_nat i) * (5 # 4))%Q /\
    sector_angle m 0 = Some (- (45 # 1) + inject_Z 0 * (5 # 4))%Q /\
    (- (45 # 1) + inject_Z (Z.of_nat 71) * (5 # 4) == 175 # 4)%Q.
Proof. eexists. repeat split. Qed.

End SystemFacts.

(** * Further properties of the code *)


(** ** Pose pipeline: further properties *)

Section PoseFacts.
Local Open Scope R_scope.

Ltac mat_unfold :=
  cbv [dot entry transpose rotation_block det_rot det3 set_translation identity4
       e00 e01 e02 e03 e10 e11 e12 e13 e20 e21 e22 e23 e30 e31 e32 e33
       det4 cofactor minor skip Nat.ltb Nat.leb Nat.even Nat.add adjugate_over
       forward_ref downward_body forward_body translation].

Ltac proj_simpl :=
  cbn [e00 e01 e02 e03 e10 e11 e12 e13 e20 e21 e22 e23 e30 e31 e32 e33] in *.

Lemma _EPS_pos : 0 < _EPS.
Proof.
  unfold _EPS. apply Rdiv_lt_0_compat; [lra |]. apply pow_lt. lra.
Qed.

(** [quaternion_matrix] normalises its argument, so the result is a
    rotation for every quaternion; below the threshold it is the identity. *)
Lemma rigid_quaternion_matrix_any q : rigid (quaternion_matrix q).
Proof.
  unfold quaternion_matrix.
  set (n := qw q * qw q + qx q * qx q + qy q * qy q + qz q * qz q).
  destruct (Rlt_dec n _EPS) as [Hlt | Hge]; [apply rigid_identity4 |].
  assert (Hn : 0 < n) by (pose proof _EPS_pos; lra).
  assert (Hs : sqrt (2 / n) * sqrt (2 / n) * n = 2).
  { rewrite sqrt_sqrt.
    - field. lra.
    - apply Rlt_le, Rdiv_lt_0_compat; lra. }
  cbv zeta. set (s := sqrt (2 / n)) in *. clearbody s.
  destruct q as [w x y z]. cbn [qw qx qy qz] in *. subst n.
  unfold rigid. mat_unfold.
  split; [apply Mat4_eq; nsatz | split; [nsatz | repeat split; ring]].
Qed.

Lemma process_pose_uncorrected cfg mnt now d st :
  process_pose cfg mnt now d st =
  let H := with_offset cfg (uncorrected_pose mnt d (scale_factor st)) in
  if (compass_enabled cfg =? 1)%Z then
    match heading_north_yaw st with
    | Some yaw => Ok (set_pose now d (dot H (euler_matrix 0 0 yaw)) st)
    | None => Raise TypeError
    end
  else Ok (set_pose now d H st).
Proof. apply process_pose_value. Qed.

(** X3: the navigation pose is rigid for every quaternion the camera
    delivers, of unit norm or not. *)
Theorem navigation_pose_rigid_any_quaternion (cfg : config) (now : Z)
    (d : pose_data) (st : state) :
  (compass_enabled cfg = 1%Z -> heading_north_yaw st <> None) ->
  exists mnt H,
    mount_transforms (camera_orientation cfg) = Ok mnt /\
    process_pose cfg mnt now d st = Ok (set_pose now d H st) /\
    rigid H.
Proof.
  intros Hyaw.
  destruct (mount_transforms (camera_orientation cfg)) as [mnt | e] eqn:Em;
    [| rewrite mount_transforms_value in Em; discriminate Em].
  destruct (rigid_mount _ _ Em) as [HA HB].
  assert (Hr : rigid (with_offset cfg (uncorrected_pose mnt d (scale_factor st)))).
  { apply rigid_with_offset, rigid_dot; [exact HA |].
    apply rigid_dot; [| exact HB].
    apply rigid_set_translation, rigid_quaternion_matrix_any. }
  exists mnt. rewrite process_pose_uncorrected. cbv zeta.
  destruct (compass_enabled cfg =? 1)%Z eqn:Ec.
  - apply Z.eqb_eq in Ec. specialize (Hyaw Ec).
    destruct (heading_north_yaw st) as [yaw |]; [| contradiction].
    eexists; split; [reflexivity |]. split; [reflexivity |].
    apply rigid_dot; [exact Hr | apply rigid_euler_yaw].
  - eexists; split; [reflexivity |]. split; [reflexivity | exact Hr].
Qed.

Lemma navigation_pose_rigid_any_quaternion_witness :
  let cfg := compass_config in
  let d := PoseData 1 2 3 (Quat 0 0 0 0) 3 in
  let st := set_heading_north_yaw (Some 1) (initial_state cfg) in
  (compass_enabled cfg = 1%Z -> heading_north_yaw st <> None) /\
  exists mnt H,
    mount_transforms (camera_orientation cfg) = Ok mnt /\
    process_pose cfg mnt 0 d st = Ok (set_pose 0 d H st) /\
    rigid H.
Proof.
  intros cfg d st.
  assert (Hy : compass_enabled cfg = 1%Z -> heading_north_yaw st <> None)
    by (intros _ E; discriminate E).
  split; [exact Hy |].
  exact (navigation_pose_rigid_any_quaternion cfg 0 d st Hy).
Defined.

(** X4: the pose branch raises exactly when the compass is enabled and no
    ATTITUDE message has been received, and then with [TypeError]; the
    inversion of the body-offset transform never fails. *)
Theorem process_pose_raises_iff (cfg : config) (mnt : mount) (now : Z)
    (d : pose_data) (st : state) :
  ((exists e, process_pose cfg mnt now d st = Raise e) <->
   (compass_enabled cfg = 1%Z /\ heading_north_yaw st = None)) /\
  (forall e, process_pose cfg mnt now d st = Raise e -> e = TypeError).
Proof.
  rewrite process_pose_uncorrected. cbv zeta.
  destruct (compass_enabled cfg =? 1)%Z eqn:Ec.
  - apply Z.eqb_eq in Ec. destruct (heading_north_yaw st) as [yaw |].
    + split; [split |].
      * intros [e E]. discriminate E.
      * intros [_ E]. discriminate E.
      * intros e E. discriminate E.
    + split; [split |].
      * intros _. split; [exact Ec | reflexivity].
      * intros _. exists TypeError. reflexivity.
      * intros e E. injection E as <-. reflexivity.
  - apply Z.eqb_neq in Ec. split; [split |].
    + intros [e E]. discriminate E.
    + intros [E _]. contradiction.
    + intros e E. discriminate E.
Qed.

(** X5: with the body offset enabled (and the compass off), the correction
    leaves the orientation of the pose of line 645 unchanged and moves its
    position by the offset minus the rotated offset. *)
Theorem body_offset_effect (cfg : config) (mnt : mount) (o : Z) (now : Z)
    (d : pose_data) (st : state) :
  body_offset_enabled cfg = 1%Z -> compass_enabled cfg <> 1%Z ->
  mount_transforms o = Ok mnt ->
  let H0 := uncorrected_pose mnt d (scale_factor st) in
  let ox := body_offset_x cfg in
  let oy := body_offset_y cfg in
  let oz := body_offset_z cfg in
  exists H,
    process_pose cfg mnt now d st = Ok (set_pose now d H st) /\
    rotation_block H = rotation_block H0 /\
    translation H =
      (e03 H0 + ox - (e00 H0 * ox + e01 H0 * oy + e02 H0 * oz),
       e13 H0 + oy - (e10 H0 * ox + e11 H0 * oy + e12 H0 * oz),
       e23 H0 + oz - (e20 H0 * ox + e21 H0 * oy + e22 H0 * oz)).
Proof.
  intros Hon Hc Em H0 ox oy oz.
  assert (Hh : homogeneous H0).
  { destruct (rigid_mount _ _ Em) as [(_ & _ & HA) (_ & _ & HB)].
    unfold H0, uncorrected_pose. apply homogeneous_dot; [exact HA |].
    apply homogeneous_dot; [| exact HB].
    unfold T265_pose, quaternion_matrix.
    destruct (Rlt_dec _ _); repeat split. }
  rewrite process_pose_uncorrected. cbv zeta. fold H0.
  apply Z.eqb_neq in Hc. rewrite Hc. unfold with_offset.
  apply Z.eqb_eq in Hon. rewrite Hon. fold ox oy oz.
  eexists; split; [reflexivity |].
  clearbody H0 ox oy oz. destruct H0. unfold homogeneous in Hh. proj_simpl.
  destruct Hh as (-> & -> & -> & ->).
  split.
  - mat_unfold. apply Mat4_eq; ring.
  - mat_unfold. apply f_equal2; [apply f_equal2 |]; ring.
Qed.

Lemma body_offset_effect_witness :
  let cfg := Config 1 (5 / 100) 0 0 0 false None in
  let d := PoseData 1 2 3 (Quat 0 1 0 0) 3 in
  let st := initial_state cfg in
  let H0 := uncorrected_pose forward_mount d (scale_factor st) in
  body_offset_enabled cfg = 1%Z /\ compass_enabled cfg <> 1%Z /\
  mount_transforms 0 = Ok forward_mount /\
  exists H,
    process_pose cfg forward_mount 0 d st = Ok (set_pose 0 d H st) /\
    rotation_block H = rotation_block H0 /\
    translation H =
      (e03 H0 + 5 / 100 - (e00 H0 * (5 / 100) + e01 H0 * 0 + e02 H0 * 0),
       e13 H0 + 0 - (e10 H0 * (5 / 100) + e11 H0 * 0 + e12 H0 * 0),
       e23 H0 + 0 - (e20 H0 * (5 / 100) + e21 H0 * 0 + e22 H0 * 0)).
Proof.
  intros cfg d st H0.
  assert (H1 : body_offset_enabled cfg = 1%Z) by reflexivity.
  assert (H2 : compass_enabled cfg <> 1%Z) by (intros E; discriminate E).
  assert (H3 : mount_transforms 0 = Ok forward_mount) by apply mount_transforms_value.
  split; [exact H1 |]. split; [exact H2 |]. split; [exact H3 |].
  exact (body_offset_effect cfg forward_mount 0 0 d st H1 H2 H3).
Defined.

(** X6: the compass correction never changes the position of the pose: it
    multiplies the pose on the right by a rotation about the z axis, so the
    translation is the one computed without it and the rotation block is
    the uncorrected one times the yaw rotation. *)
Theorem compass_keeps_position (cfg : config) (mnt : mount) (o : Z) (now : Z)
    (d : pose_data) (st : state) (yaw : R) :
  compass_enabled cfg = 1%Z -> heading_north_yaw st = Some yaw ->
  mount_transforms o = Ok mnt ->
  let H0 := with_offset cfg (uncorrected_pose mnt d (scale_factor st)) in
  exists H,
    process_pose cfg mnt now d st = Ok (set_pose now d H st) /\
    translation H = translation H0 /\
    rotation_block H = dot (rotation_block H0) (euler_matrix 0 0 yaw).
Proof.
  intros Hc Hy Em H0.
  rewrite process_pose_uncorrected. cbv zeta. fold H0.
  apply Z.eqb_eq in Hc. rewrite Hc, Hy.
  eexists; split; [reflexivity |]. split; [apply translation_dot_yaw |].
  destruct (rigid_euler_yaw yaw) as (_ & _ & Hh).
  rewrite rotation_block_dot by exact Hh. reflexivity.
Qed.

Lemma compass_keeps_position_witness :
  let cfg := compass_config in
  let d := PoseData 1 2 3 (Quat 1 0 0 0) 3 in
  let st := set_heading_north_yaw (Some 1) (initial_state cfg) in
  let H0 := with_offset cfg (uncorrected_pose forward_mount d (scale_factor st)) in
  compass_enabled cfg = 1%Z /\ heading_north_yaw st = Some 1 /\
  mount_transforms 0 = Ok forward_mount /\
  exists H,
    process_pose cfg forward_mount 0 d st = Ok (set_pose 0 d H st) /\
    translation H = translation H0 /\
    rotation_block H = dot (rotation_block H0) (euler_matrix 0 0 1).
Proof.
  intros cfg d st H0.
  assert (H1 : compass_enabled cfg = 1%Z) by reflexivity.
  assert (H2 : heading_north_yaw st = Some 1) by reflexivity.
  assert (H3 : mount_transforms 0 = Ok forward_mount) by apply mount_transforms_value.
  split; [exact H1 |]. split; [exact H2 |]. split; [exact H3 |].
  exact (compass_keeps_position cfg forward_mount 0 0 d st 1 H1 H2 H3).
Defined.

(** X7: for the forward mount (every orientation value other than 1) the
    two fixed transforms are inverse to each other, so the rotation of the
    navigation pose is the sample rotation conjugated by the mount
    transform; for the downward mount they are not. *)
Theorem forward_mount_transforms_inverse (o : Z) :
  exists mnt,
    mount_transforms o = Ok mnt /\
    (o <> 1%Z ->
     dot (H_aeroRef_T265Ref mnt) (H_T265body_aeroBody mnt) = identity4 /\
     dot (H_T265body_aeroBody mnt) (H_aeroRef_T265Ref mnt) = identity4) /\
    (o = 1%Z ->
     e00 (dot (H_aeroRef_T265Ref mnt) (H_T265body_aeroBody mnt)) <> 1).
Proof.
  eexists. split; [apply mount_transforms_value |].
  cbn [H_aeroRef_T265Ref H_T265body_aeroBody]. split.
  - intros Ho. apply Z.eqb_neq in Ho. rewrite Ho.
    split; mat_unfold; apply Mat4_eq; ring.
  - intros ->. cbn [Z.eqb Pos.eqb]. mat_unfold. lra.
Qed.
End PoseFacts.


Section ReportFacts.
Local Open Scope R_scope.

Ltac mat_unfold :=
  cbv [dot entry transpose rotation_block det_rot det3 set_translation identity4
       e00 e01 e02 e03 e10 e11 e12 e13 e20 e21 e22 e23 e30 e31 e32 e33
       det4 cofactor minor skip Nat.ltb Nat.leb Nat.even Nat.add adjugate_over
       forward_ref downward_body forward_body translation].

Ltac proj_simpl :=
  cbn [e00 e01 e02 e03 e10 e11 e12 e13 e20 e21 e22 e23 e30 e31 e32 e33] in *.

Lemma sin_cos_shift x : sin (x - PI) = - sin x /\ cos (x - PI) = - cos x.
Proof.
  pose proof (neg_sin (x - PI)) as Hs. pose proof (neg_cos (x - PI)) as Hc.
  replace (x - PI + PI) with x in * by ring. split; lra.
Qed.

Lemma tan_shift_minus x : cos x <> 0 -> tan (x - PI) = tan x.
Proof.
  intros H. unfold tan. destruct (sin_cos_shift x) as [-> ->]. field. exact H.
Qed.

Lemma tan_shift_plus x : cos x <> 0 -> tan (x + PI) = tan x.
Proof.
  intros H. unfold tan. rewrite neg_sin, neg_cos. field. exact H.
Qed.

(** [atan2] recovers an angle of the interval (-pi, pi] from its sine and
    cosine. *)
Lemma atan2_sin_cos yaw : - PI < yaw <= PI -> atan2 (sin yaw) (cos yaw) = yaw.
Proof.
  intros [Hlo Hhi]. pose proof PI_RGT_0 as Hpi. unfold atan2.
  destruct (Rlt_dec 0 (cos yaw)) as [Hc | Hc].
  - assert (Hr : - (PI / 2) < yaw < PI / 2).
    { split.
      - destruct (Rlt_dec (- (PI / 2)) yaw) as [H | H]; [exact H |].
        exfalso. pose proof (cos_le_0 (- yaw)) as Hn. rewrite cos_neg in Hn.
        assert (cos yaw <= 0) by (apply Hn; lra). lra.
      - destruct (Rlt_dec yaw (PI / 2)) as [H | H]; [exact H |].
        exfalso. assert (cos yaw <= 0) by (apply cos_le_0; lra). lra. }
    change (sin yaw / cos yaw) with (tan yaw). apply atan_tan. exact Hr.
  - destruct (Rlt_dec (cos yaw) 0) as [Hc' | Hc'].
    + assert (Hout : yaw < - (PI / 2) \/ PI / 2 < yaw).
      { destruct (Rlt_dec yaw (- (PI / 2))) as [H | H]; [left; exact H |].
        destruct (Rlt_dec (PI / 2) yaw) as [H' | H']; [right; exact H' |].
        exfalso. assert (0 <= cos yaw) by (apply cos_ge_0; lra). lra. }
      change (sin yaw / cos yaw) with (tan yaw).
      destruct (Rle_dec 0 (sin yaw)) as [Hs | Hs].
      * assert (Hp : PI / 2 < yaw).
        { destruct Hout as [H | H]; [| exact H]. exfalso.
          pose proof (sin_gt_0 (- yaw)) as Hn. rewrite sin_neg in Hn.
          assert (0 < - sin yaw) by (apply Hn; lra). lra. }
        rewrite <- (tan_shift_minus yaw) by lra.
        rewrite atan_tan by lra. ring.
      * assert (Hp : yaw < - (PI / 2)).
        { destruct Hout as [H | H]; [exact H |]. exfalso.
          assert (0 <= sin yaw) by (apply sin_ge_0; lra). lra. }
        rewrite <- (tan_shift_plus yaw) by lra.
        rewrite atan_tan by lra. ring.
    + assert (Hz : cos yaw = 0) by lra.
      assert (Hy : yaw = PI / 2 \/ yaw = - (PI / 2)).
      { destruct (Rtotal_order yaw (PI / 2)) as [H | [H | H]]; [| left; exact H |].
        - destruct (Rtotal_order yaw (- (PI / 2))) as [H' | [H' | H']];
            [| right; exact H' |].
          + exfalso. pose proof (cos_lt_0 (- yaw)) as Hn. rewrite cos_neg in Hn.
            assert (cos yaw < 0) by (apply Hn; lra). lra.
          + exfalso. assert (0 < cos yaw) by (apply cos_gt_0; lra). lra.
        - exfalso. assert (cos yaw < 0) by (apply cos_lt_0; lra). lra. }
      destruct Hy as [-> | ->].
      * rewrite sin_PI2. destruct (Rlt_dec 0 1) as [_ | H]; [reflexivity | lra].
      * rewrite sin_neg, sin_PI2.
        destruct (Rlt_dec 0 (Ropp 1)) as [H | _]; [lra |].
        destruct (Rlt_dec (Ropp 1) 0) as [_ | H]; [reflexivity | lra].
Qed.

Lemma euler_from_matrix_yaw H yaw :
  - PI < yaw <= PI ->
  e00 H = cos yaw -> e10 H = sin yaw -> e20 H = 0 -> e21 H = 0 -> e22 H = 1 ->
  euler_from_matrix H = (0, 0, yaw).
Proof.
  intros Hy H00 H10 H20 H21 H22. unfold euler_from_matrix.
  rewrite H00, H10, H20, H21, H22.
  assert (Hcy : sqrt (cos yaw * cos yaw + sin yaw * sin yaw) = 1).
  { pose proof (sin2_cos2 yaw) as Hsc. unfold Rsqr in Hsc.
    replace (cos yaw * cos yaw + sin yaw * sin yaw) with 1 by lra. apply sqrt_1. }
  rewrite Hcy. pose proof _EPS_lt_1 as He.
  destruct (Rlt_dec _EPS 1) as [_ | Hn]; [| contradiction].
  rewrite (atan2_sin_cos yaw Hy).
  assert (Ha : atan2 0 1 = 0).
  { unfold atan2. destruct (Rlt_dec 0 1) as [_ | Hn]; [| lra].
    replace (0 / 1) with 0 by field. apply atan_0. }
  replace (- 0) with 0 by ring. rewrite Ha. reflexivity.
Qed.

Lemma translation_entries H a b c :
  translation H = (a, b, c) -> e03 H = a /\ e13 H = b /\ e23 H = c.
Proof. unfold translation. intros E. injection E as -> -> ->. auto. Qed.

(** X8: end to end, with the body offset off: after a frame set with a pose
    sample, the next pose report carries the time of that frame and the
    scaled sample translation with its axes permuted into the aeronautical
    frame, x = -z, y = x, z = -y. *)
Theorem pose_report_position (cfg : config) (o : Z) (mnt : mount) (Qm : Qmat)
    (nf now : Z) (d : pose_data) (raw : list (list Z)) (st : state) :
  body_offset_enabled cfg <> 1%Z ->
  (compass_enabled cfg = 1%Z -> heading_north_yaw st <> None) ->
  mount_transforms o = Ok mnt ->
  has_shape 300 412 raw = true -> List.length (distances st) = 72%nat ->
  exists st' roll pitch yaw,
    run cfg mnt Qm nf [Frames now (Some d) raw; Vision_tick] st =
    Ok (st', [Send (vision_position_estimate now
                      (- (translation_z d * scale_factor st))
                      (translation_x d * scale_factor st)
                      (- (translation_y d * scale_factor st))
                      roll pitch yaw)]).
Proof.
  intros Hoff Hyaw Em Hs Hl.
  destruct (process_pose_translation cfg o mnt now d st Hoff Hyaw Em) as (H & E & T).
  apply translation_entries in T. destruct T as (T0 & T1 & T2).
  destruct (euler_from_matrix H) as [[roll pitch] yaw] eqn:Ee.
  eexists _, roll, pitch, yaw.
  cbn [run step]. unfold process_frames. rewrite E. cbn [bind].
  cbn [set_pose distances]. rewrite (estimate_profile nf Qm raw _ Hs Hl).
  cbn [bind fst snd]. unfold run_job, send_vision_position_message.
  cbn [set_distances set_pose H_aeroRef_aeroBody current_time].
  rewrite Ee, T0, T1, T2. reflexivity.
Qed.

Lemma pose_report_position_witness :
  let cfg := source_config false None in
  let d := PoseData 1 2 3 (Quat 1 0 0 0) 3 in
  let st := initial_state cfg in
  body_offset_enabled cfg <> 1%Z /\
  (compass_enabled cfg = 1%Z -> heading_north_yaw st <> None) /\
  mount_transforms 0 = Ok forward_mount /\
  has_shape 300 412 (raw_uniform 320) = true /\
  List.length (distances st) = 72%nat /\
  exists st' roll pitch yaw,
    run cfg forward_mount Qm_T265 0 [Frames 7 (Some d) (raw_uniform 320); Vision_tick] st =
    Ok (st', [Send (vision_position_estimate 7
                      (- (translation_z d * scale_factor st))
                      (translation_x d * scale_factor st)
                      (- (translation_y d * scale_factor st))
                      roll pitch yaw)]).
Proof.
  intros cfg d st.
  assert (H1 : body_offset_enabled cfg <> 1%Z) by (intros E; discriminate E).
  assert (H2 : compass_enabled cfg = 1%Z -> heading_north_yaw st <> None)
    by (intros E; discriminate E).
  assert (H3 : mount_transforms 0 = Ok forward_mount) by apply mount_transforms_value.
  assert (H4 : has_shape 300 412 (raw_uniform 320) = true) by (vm_compute; reflexivity).
  assert (H5 : List.length (distances st) = 72%nat) by reflexivity.
  repeat (split; [assumption |]).
  exact (pose_report_position cfg 0 forward_mount Qm_T265 0 7 d (raw_uniform 320) st
           H1 H2 H3 H4 H5).
Defined.

Lemma quaternion_matrix_identity : quaternion_matrix (Quat 1 0 0 0) = identity4.
Proof.
  rewrite quaternion_matrix_unit by (unfold unit_quaternion; cbn [qw qx qy qz]; ring).
  cbn [qw qx qy qz]. unfold identity4. apply Mat4_eq; ring.
Qed.

(** X9: with the compass enabled, the body offset off and the forward
    mount, a sample with the identity rotation is reported with roll 0,
    pitch 0 and a yaw equal to the stored heading, for headings in
    (-pi, pi]. *)
Theorem heading_reported_as_yaw (cfg : config) (o : Z) (mnt : mount) (now : Z)
    (d : pose_data) (st : state) (yaw : R) :
  compass_enabled cfg = 1%Z -> body_offset_enabled cfg <> 1%Z ->
  o <> 1%Z -> mount_transforms o = Ok mnt ->
  rotation d = Quat 1 0 0 0 ->
  heading_north_yaw st = Some yaw -> - PI < yaw <= PI ->
  exists st',
    process_pose cfg mnt now d st = Ok st' /\
    send_vision_position_message st' =
    Ok (st', [Send (vision_position_estimate now
                      (- (translation_z d * scale_factor st))
                      (translation_x d * scale_factor st)
                      (- (translation_y d * scale_factor st))
                      0 0 yaw)]).
Proof.
  intros Hc Hoff Ho Em Hrot Hy Hrange.
  destruct (zero_translation_mount _ _ Em) as [EA HB].
  set (H := dot (uncorrected_pose mnt d (scale_factor st)) (euler_matrix 0 0 yaw)).
  assert (E : process_pose cfg mnt now d st = Ok (set_pose now d H st)).
  { rewrite process_pose_uncorrected. cbv zeta. unfold with_offset.
    apply Z.eqb_neq in Hoff. apply Z.eqb_eq in Hc. rewrite Hoff, Hc, Hy.
    reflexivity. }
  assert (T : translation H = (- (translation_z d * scale_factor st),
                               translation_x d * scale_factor st,
                               - (translation_y d * scale_factor st))).
  { unfold H. rewrite translation_dot_yaw. unfold uncorrected_pose, T265_pose.
    rewrite EA. apply translation_forward, HB. }
  apply translation_entries in T. destruct T as (T0 & T1 & T2).
  assert (Ee : euler_from_matrix H = (0, 0, yaw)).
  { rewrite mount_transforms_value in Em. apply Z.eqb_neq in Ho. rewrite Ho in Em.
    injection Em as <-.
    apply euler_from_matrix_yaw; [exact Hrange | | | | |]; unfold H;
      unfold uncorrected_pose, T265_pose; rewrite Hrot, quaternion_matrix_identity;
      cbn [H_aeroRef_T265Ref H_T265body_aeroBody]; unfold euler_matrix;
      rewrite sin_0, cos_0; mat_unfold; ring. }
  exists (set_pose now d H st). split; [exact E |].
  unfold send_vision_position_message. cbn [set_pose H_aeroRef_aeroBody current_time].
  rewrite Ee, T0, T1, T2. reflexivity.
Qed.

Lemma heading_reported_as_yaw_witness :
  let cfg := compass_config in
  let d := PoseData 1 2 3 (Quat 1 0 0 0) 3 in
  let st := set_heading_north_yaw (Some 1) (initial_state cfg) in
  compass_enabled cfg = 1%Z /\ body_offset_enabled cfg <> 1%Z /\
  0%Z <> 1%Z /\ mount_transforms 0 = Ok forward_mount /\
  rotation d = Quat 1 0 0 0 /\
  heading_north_yaw st = Some 1 /\ - PI < 1 <= PI /\
  exists st',
    process_pose cfg forward_mount 0 d st = Ok st' /\
    send_vision_position_message st' =
    Ok (st', [Send (vision_position_estimate 0
                      (- (translation_z d * scale_factor st))
                      (translation_x d * scale_factor st)
                      (- (translation_y d * scale_factor st))
                      0 0 1)]).
Proof.
  intros cfg d st.
  assert (H1 : compass_enabled cfg = 1%Z) by reflexivity.
  assert (H2 : body_offset_enabled cfg <> 1%Z) by (intros E; discriminate E).
  assert (H3 : 0%Z <> 1%Z) by discriminate.
  assert (H4 : mount_transforms 0 = Ok forward_mount) by apply mount_transforms_value.
  assert (H5 : rotation d = Quat 1 0 0 0) by reflexivity.
  assert (H6 : heading_north_yaw st = Some 1) by reflexivity.
  assert (H7 : - PI < 1 <= PI) by (pose proof PI2_1; pose proof PI_RGT_0; lra).
  repeat (split; [assumption |]).
  exact (heading_reported_as_yaw cfg 0 forward_mount 0 d st 1 H1 H2 H3 H4 H5 H6 H7).
Defined.
End ReportFacts.


Section ConfidenceFacts.

Lemma confidence_percent_range c :
  (c < 4)%nat -> (0 <= confidence_percent c /\ confidence_percent c <= 100)%Q.
Proof.
  intros H. unfold confidence_percent.
  do 4 (destruct c as [| c]; [split; vm_compute; discriminate |]). lia.
Qed.

(** One tick with a valid level: the numeric report, and a text
    notification exactly when the level is not the one last reported. *)
Lemma confidence_tick_any d st :
  (tracker_confidence d < 4)%nat ->
  exists out,
    send_confidence_level_dummy_message (set_data (Some d) st) =
      Ok (set_current_confidence (Some (tracker_confidence d)) (set_data (Some d) st),
          out) /\
    count_statustext out =
      level_changes (current_confidence st) [tracker_confidence d] /\
    numeric_reports out = [confidence_percent (tracker_confidence d)].
Proof.
  intros Hc. destruct (confidence_level_name _ Hc) as [name En].
  unfold send_confidence_level_dummy_message. cbn [set_data data current_confidence].
  rewrite En. cbn [bind level_changes].
  destruct (current_confidence st) as [p |] eqn:Ecur.
  - destruct (Nat.eqb p (tracker_confidence d)) eqn:Ep; cbn [negb].
    + apply Nat.eqb_eq in Ep. subst p. eexists. split.
      { f_equal. f_equal. unfold set_current_confidence, set_data.
        cbn [scale_factor current_time distances data current_confidence
             H_aeroRef_aeroBody heading_north_yaw scale_thread_alive].
        rewrite Ecur. reflexivity. }
      split; reflexivity.
    + eexists. split; [reflexivity | split; reflexivity].
  - eexists. split; [reflexivity | split; reflexivity].
Qed.

Lemma level_changes_cons prev c rest :
  level_changes prev (c :: rest) =
  (level_changes prev [c] + level_changes (Some c) rest)%nat.
Proof. cbn [level_changes]. lia. Qed.

Lemma numeric_reports_app o1 o2 :
  numeric_reports (o1 ++ o2) = numeric_reports o1 ++ numeric_reports o2.
Proof. unfold numeric_reports. apply flat_map_app. Qed.

Lemma confidence_ticks_trace ds : forall st,
  Forall (fun d => (tracker_confidence d < 4)%nat) ds ->
  exists st' out,
    confidence_ticks ds st = Ok (st', out) /\
    count_statustext out =
      level_changes (current_confidence st) (map tracker_confidence ds) /\
    numeric_reports out = map (fun d => confidence_percent (tracker_confidence d)) ds /\
    current_confidence st' =
      fold_left (fun _ c => Some c) (map tracker_confidence ds) (current_confidence st).
Proof.
  induction ds as [| d ds IH]; intros st Hall.
  - exists st, []. repeat split.
  - inversion Hall as [| ? ? Hd Hds]; subst.
    destruct (confidence_tick_any d st Hd) as (out1 & E1 & C1 & N1).
    destruct (IH (set_current_confidence (Some (tracker_confidence d))
                    (set_data (Some d) st)) Hds) as (st2 & out2 & E2 & C2 & N2 & L2).
    exists st2, (out1 ++ out2). cbn [confidence_ticks].
    rewrite E1. cbn [bind fst snd]. rewrite E2. cbn [bind fst snd].
    split; [reflexivity |].
    cbn [map]. rewrite level_changes_cons, count_statustext_app, numeric_reports_app.
    rewrite C1, C2, N1, N2. repeat split. exact L2.
Qed.

(** X10: over any run of confidence ticks with valid levels, the number of
    text notifications is the number of ticks whose level differs from the
    level before it (the first tick after start-up always counts), and the
    level recorded at the end is the last one seen. *)
Theorem notifications_count_level_changes (ds : list pose_data) (st : state) :
  Forall (fun d => (tracker_confidence d < 4)%nat) ds ->
  exists st' out,
    confidence_ticks ds st = Ok (st', out) /\
    count_statustext out =
      level_changes (current_confidence st) (map tracker_confidence ds) /\
    current_confidence st' =
      fold_left (fun _ c => Some c) (map tracker_confidence ds) (current_confidence st).
Proof.
  intros Hall. destruct (confidence_ticks_trace ds st Hall) as (st' & out & E & C & _ & L).
  exists st', out. auto.
Qed.

Lemma notifications_count_level_changes_witness :
  let ds := [still_pose 1; still_pose 1; still_pose 2; still_pose 1; still_pose 1] in
  let st := initial_state (source_config false None) in
  Forall (fun d => (tracker_confidence d < 4)%nat) ds /\
  exists st' out,
    confidence_ticks ds st = Ok (st', out) /\
    count_statustext out =
      level_changes (current_confidence st) (map tracker_confidence ds) /\
    current_confidence st' =
      fold_left (fun _ c => Some c) (map tracker_confidence ds) (current_confidence st).
Proof.
  intros ds st.
  assert (H : Forall (fun d => (tracker_confidence d < 4)%nat) ds)
    by (repeat constructor; cbn; lia).
  split; [exact H |]. exact (notifications_count_level_changes ds st H).
Defined.

(** X11: every confidence tick with a valid level sends exactly one
    numeric report, whether or not the level changed; its value is
    [level * 100 / 3], between 0 and 100. *)
Theorem numeric_report_every_tick (ds : list pose_data) (st : state) :
  Forall (fun d => (tracker_confidence d < 4)%nat) ds ->
  exists st' out,
    confidence_ticks ds st = Ok (st', out) /\
    numeric_reports out = map (fun d => confidence_percent (tracker_confidence d)) ds /\
    List.length (numeric_reports out) = List.length ds /\
    Forall (fun q => 0 <= q /\ q <= 100)%Q (numeric_reports out).
Proof.
  intros Hall. destruct (confidence_ticks_trace ds st Hall) as (st' & out & E & _ & N & _).
  exists st', out. split; [exact E |]. split; [exact N |]. rewrite N.
  split; [apply length_map |].
  apply Forall_map. revert Hall. apply Forall_impl. intros d Hd.
  apply confidence_percent_range, Hd.
Qed.

Lemma numeric_report_every_tick_witness :
  let ds := [still_pose 0; still_pose 3; still_pose 3] in
  let st := initial_state (source_config false None) in
  Forall (fun d => (tracker_confidence d < 4)%nat) ds /\
  exists st' out,
    confidence_ticks ds st = Ok (st', out) /\
    numeric_reports out = map (fun d => confidence_percent (tracker_confidence d)) ds /\
    List.length (numeric_reports out) = List.length ds /\
    Forall (fun q => 0 <= q /\ q <= 100)%Q (numeric_reports out).
Proof.
  intros ds st.
  assert (H : Forall (fun d => (tracker_confidence d < 4)%nat) ds)
    by (repeat constructor; cbn; lia).
  split; [exact H |]. exact (numeric_report_every_tick ds st H).
Defined.

End ConfidenceFacts.


Section ProfileFacts.

Lemma setitem_ok {A : Type} (l : list A) : forall i v,
  (i < List.length l)%nat -> exists l', setitem l i v = Ok l'.
Proof.
  induction l as [| a l IH]; intros i v Hi; [cbn in Hi; lia |].
  destruct i as [| i]; cbn [setitem]; [eexists; reflexivity |].
  destruct (IH i v) as [l' E]; [cbn in Hi; lia |]. rewrite E. eexists; reflexivity.
Qed.

Lemma Forall_setitem {A : Type} (P : A -> Prop) (l : list A) : forall i v l',
  Forall P l -> P v -> setitem l i v = Ok l' -> Forall P l'.
Proof.
  induction l as [| a l IH]; intros i v l' Hl Hv E; [destruct i; discriminate E |].
  inversion Hl as [| ? ? Ha Hl']; subst.
  destruct i as [| i]; cbn [setitem] in E.
  - injection E as <-. constructor; assumption.
  - destruct (setitem l i v) as [l'' |] eqn:E'; [| discriminate].
    cbn [bind] in E. injection E as <-. constructor; [assumption |].
    apply (IH i v l''); assumption.
Qed.

Lemma index2_raises_IndexError {A : Type} (img : list (list A)) r c e :
  index2 img r c = Raise e -> e = IndexError.
Proof.
  unfold index2, index. destruct (nth_error img r) as [row |]; cbn [bind].
  - destruct (nth_error row c); intros E; [discriminate | congruence].
  - congruence.
Qed.

Lemma Forall_sample_distances nf pts idx : forall dists dists',
  Forall uint16 dists ->
  sample_distances nf pts idx dists = Ok dists' -> Forall uint16 dists'.
Proof.
  induction idx as [| i idx IH]; intros dists dists' Hd E; cbn [sample_distances] in E.
  - injection E as <-. exact Hd.
  - destruct (index2 pts (i * 4) 150) as [p |]; [| discriminate]. cbn [bind] in E.
    destruct (setitem dists i _) as [d1 |] eqn:E1; [| discriminate]. cbn [bind] in E.
    apply (IH d1 dists'); [| exact E].
    eapply Forall_setitem; [exact Hd | | exact E1]. apply astype_uint16_range.
Qed.

Lemma sample_distances_raises nf pts idx : forall dists,
  (forall i, In i idx -> (i < List.length dists)%nat) ->
  (exists i, In i idx /\ exists e, index2 pts (i * 4) 150 = Raise e) ->
  sample_distances nf pts idx dists = Raise IndexError.
Proof.
  induction idx as [| i idx IH]; intros dists Hlen [j [Hj [e Ej]]]; [destruct Hj |].
  cbn [sample_distances].
  destruct (index2 pts (i * 4) 150) as [p | e'] eqn:Ei.
  - cbn [bind].
    destruct (setitem_ok dists i (astype_uint16 nf (floor_norm_cm p))) as [d1 E1];
      [apply Hlen; left; reflexivity |].
    rewrite E1. cbn [bind]. apply IH.
    + intros k Hk. rewrite (length_setitem _ _ _ _ E1). apply Hlen. right. exact Hk.
    + destruct Hj as [-> | Hj]; [rewrite Ei in Ej; discriminate |].
      exists j. split; [exact Hj | exists e; exact Ej].
  - cbn [bind]. rewrite (index2_raises_IndexError _ _ _ _ Ei). reflexivity.
Qed.

(** X13: the depth loop overwrites the distance array wholesale: on a
    300 x 412 matcher output the new array does not depend on the old
    contents, and running the loop again on the same frame changes
    nothing. *)
Theorem estimate_overwrites_wholesale (nf : Z) (Qm : Qmat) (raw : list (list Z))
    (d1 d2 : list Z) :
  has_shape 300 412 raw = true ->
  List.length d1 = 72%nat -> List.length d2 = 72%nat ->
  exists profile,
    estimate nf Qm raw d1 = Ok profile /\
    estimate nf Qm raw d2 = Ok profile /\
    estimate nf Qm raw profile = Ok profile.
Proof.
  intros Hs H1 H2. exists (map (sampled_entry nf Qm raw) (seq 0 72)).
  split; [apply estimate_profile; assumption |].
  split; [apply estimate_profile; assumption |].
  apply estimate_profile; [assumption |]. rewrite length_map, length_seq. reflexivity.
Qed.

Lemma estimate_overwrites_wholesale_witness :
  has_shape 300 412 (raw_uniform 320) = true /\
  List.length (repeat 0%Z 72) = 72%nat /\ List.length (repeat 7%Z 72) = 72%nat /\
  exists profile,
    estimate 0 Qm_T265 (raw_uniform 320) (repeat 0%Z 72) = Ok profile /\
    estimate 0 Qm_T265 (raw_uniform 320) (repeat 7%Z 72) = Ok profile /\
    estimate 0 Qm_T265 (raw_uniform 320) profile = Ok profile.
Proof.
  assert (H1 : has_shape 300 412 (raw_uniform 320) = true) by (vm_compute; reflexivity).
  assert (H2 : List.length (repeat 0%Z 72) = 72%nat) by reflexivity.
  assert (H3 : List.length (repeat 7%Z 72) = 72%nat) by reflexivity.
  repeat (split; [assumption |]).
  exact (estimate_overwrites_wholesale 0 Qm_T265 (raw_uniform 320) _ _ H1 H2 H3).
Defined.

(** X15: a matcher output that is too small stops the acquisition loop.
    Without rows, or with at most [max_disp = 112] columns (nothing is left
    after the crop), the reprojection yields [None] and the first subscript
    raises [TypeError]; with fewer than 285 rows or fewer than 263 columns
    otherwise, the subscript [points_3D[i * 4, 150, :]] runs out of range
    and raises [IndexError]. *)
Theorem estimate_small_image_raises (nf : Z) (Qm : Qmat) (raw : list (list Z))
    (rows cols : nat) (dists : list Z) :
  has_shape rows cols raw = true -> List.length dists = 72%nat ->
  ((rows = 0 \/ cols <= 112)%nat -> estimate nf Qm raw dists = Raise TypeError) /\
  ((0 < rows)%nat -> (112 < cols)%nat -> (rows < 285 \/ cols < 263)%nat ->
   estimate nf Qm raw dists = Raise IndexError).
Proof.
  intros Hs Hl. split.
  - intros Hrc. unfold estimate.
    rewrite (reprojectImageTo3D_empty raw Qm rows cols Hs Hrc). reflexivity.
  - intros Hr Hc Hsmall. unfold estimate.
    destruct (reprojectImageTo3D_nonempty raw Qm rows cols Hs Hr Hc) as [points_3D Ep].
    rewrite Ep. apply sample_distances_raises.
    + intros i Hi. apply in_seq in Hi. lia.
    + unfold has_shape in Hs. apply andb_true_iff in Hs as [Hlen Hrows].
      apply Nat.eqb_eq in Hlen.
      destruct Hsmall as [Hlt | Hlt].
      * exists 71%nat. split; [apply in_seq; lia |].
        exists IndexError. rewrite (index2_points raw Qm points_3D _ _ Ep).
        unfold index2, index.
        assert (E : nth_error raw (71 * 4) = None) by (apply nth_error_None; cbn; lia).
        rewrite E. reflexivity.
      * exists 0%nat. split; [apply in_seq; lia |].
        exists IndexError. rewrite (index2_points raw Qm points_3D _ _ Ep).
        unfold index2, index.
        destruct raw as [| row raw]; [cbn in Hlen; lia |].
        cbn [forallb] in Hrows. apply andb_true_iff in Hrows as [Hrow _].
        apply Nat.eqb_eq in Hrow. cbn [Nat.mul nth_error bind].
        assert (E : nth_error row (Z.to_nat max_disp + 150) = None).
        { apply nth_error_None. change (Z.to_nat max_disp) with 112%nat. lia. }
        rewrite E. reflexivity.
Qed.

Lemma estimate_small_image_raises_witness :
  let narrow := repeat (repeat 320%Z 112) 300 in
  let short := repeat (repeat 320%Z 412) 100 in
  has_shape 300 112 narrow = true /\ has_shape 100 412 short = true /\
  List.length (repeat 0%Z 72) = 72%nat /\
  estimate 0 Qm_T265 narrow (repeat 0%Z 72) = Raise TypeError /\
  estimate 0 Qm_T265 short (repeat 0%Z 72) = Raise IndexError.
Proof.
  intros narrow short.
  assert (H1 : has_shape 300 112 narrow = true) by (vm_compute; reflexivity).
  assert (H2 : has_shape 100 412 short = true) by (vm_compute; reflexivity).
  assert (H3 : List.length (repeat 0%Z 72) = 72%nat) by reflexivity.
  split; [exact H1 |]. split; [exact H2 |]. split; [exact H3 |]. split.
  - apply (estimate_small_image_raises 0 Qm_T265 narrow 300 112 _ H1 H3). right. lia.
  - apply (estimate_small_image_raises 0 Qm_T265 short 100 412 _ H2 H3); lia.
Defined.

End ProfileFacts.


Section InvariantFacts.
Local Open Scope R_scope.

(** What one event can change: the distance array only through the depth
    loop, the heading only through an ATTITUDE message with the compass
    enabled, and the operator thread never restarts. *)
Lemma step_footprint cfg mnt Qm nf ev st st' out :
  step cfg mnt Qm nf ev st = Ok (st', out) ->
  (distances st' = distances st \/
   exists now pose raw, ev = Frames now pose raw /\
     estimate nf Qm raw (distances st) = Ok (distances st')) /\
  (heading_north_yaw st' = heading_north_yaw st \/
   compass_enabled cfg = 1%Z /\ exists yaw, ev = Attitude yaw) /\
  (scale_thread_alive st = false -> scale_thread_alive st' = false).
Proof.
  destruct ev as [| | | yaw | line | now pose raw]; cbn [step].
  - unfold run_job, send_vision_position_message.
    destruct (H_aeroRef_aeroBody st) as [H |];
      [destruct (euler_from_matrix H) as [[? ?] ?] |];
      intros E; injection E as <- <-; auto.
  - unfold run_job, send_confidence_level_dummy_message.
    destruct (data st) as [d |]; [| intros E; injection E as <- <-; auto].
    destruct (index pose_data_confidence_level (tracker_confidence d));
      cbn [bind]; [| intros E; injection E as <- <-; auto].
    destruct (match current_confidence st with Some c' => _ | None => _ end);
      intros E; injection E as <- <-; auto.
  - unfold run_job, send_distance_sensor_message.
    destruct (int_mean _); cbn [bind]; intros E; injection E as <- <-; auto.
  - destruct (compass_enabled cfg =? 1)%Z eqn:Ec.
    + apply Z.eqb_eq in Ec. unfold att_msg_callback.
      destruct (heading_north_yaw st); intros E; injection E as <- <-;
        (split; [left; reflexivity | split; [right; eauto | auto]]).
    + intros E; injection E as <- <-; auto.
  - destruct (scale_thread_alive st) eqn:Ea.
    + destruct line as [s |]; cbn [scale_update]; intros E; injection E as <- <-;
        (split; [left; reflexivity | split; [left; reflexivity | intros Hf; try discriminate Hf; reflexivity]]).
    + intros E; injection E as <- <-. rewrite Ea. auto.
  - unfold process_frames.
    assert (Hp : forall d st1, process_pose cfg mnt now d st = Ok st1 ->
                   distances st1 = distances st /\
                   heading_north_yaw st1 = heading_north_yaw st /\
                   scale_thread_alive st1 = scale_thread_alive st).
    { intros d st1. rewrite process_pose_value. cbv zeta.
      destruct (compass_enabled cfg =? 1)%Z;
        [destruct (heading_north_yaw st) eqn:Eh |];
        intros E; try discriminate E; injection E as <-;
        cbn [set_pose distances heading_north_yaw scale_thread_alive]; auto. }
    destruct pose as [d |].
    + destruct (process_pose cfg mnt now d st) as [st1 |] eqn:E1; [| discriminate].
      destruct (Hp d st1 E1) as (Hd & Hh & Ha).
      cbn [bind].
      destruct (estimate nf Qm raw (distances st1)) as [ds |] eqn:E2; [| discriminate].
      cbn [bind]. intros E; injection E as <- <-.
      cbn [set_distances distances heading_north_yaw scale_thread_alive].
      rewrite Hd in E2. rewrite Hh, Ha. split; [right; eauto | auto].
    + cbn [bind].
      destruct (estimate nf Qm raw (distances st)) as [ds |] eqn:E2; [| discriminate].
      cbn [bind]. intros E; injection E as <- <-.
      cbn [set_distances distances heading_north_yaw scale_thread_alive].
      split; [right; eauto | auto].
Qed.

(** A property kept by every event is kept by every run. *)
Lemma run_invariant cfg mnt Qm nf (P : state -> Prop) :
  (forall ev st st' out, P st -> step cfg mnt Qm nf ev st = Ok (st', out) -> P st') ->
  forall evs st st' out,
    P st -> run cfg mnt Qm nf evs st = Ok (st', out) -> P st'.
Proof.
  intros Hstep. induction evs as [| ev evs IH]; intros st st' out HP E.
  - cbn [run] in E. injection E as <- <-. exact HP.
  - cbn [run] in E.
    destruct (step cfg mnt Qm nf ev st) as [[sa oa] |] eqn:Es; [| discriminate].
    cbn [bind fst snd] in E.
    destruct (run cfg mnt Qm nf evs sa) as [[sb ob] |] eqn:Er; [| discriminate].
    cbn [bind fst snd] in E. injection E as <- <-.
    apply (IH sa sb ob); [| exact Er]. apply (Hstep ev st sa oa HP Es).
Qed.

Lemma sum_Z_uint16 l :
  Forall uint16 l -> (0 <= sum_Z l <= 65535 * Z.of_nat (List.length l))%Z.
Proof.
  induction 1 as [| a l Ha Hl IH]; [cbn; lia |].
  change (sum_Z (a :: l)) with (a + sum_Z l)%Z.
  change (List.length (a :: l)) with (S (List.length l)). unfold uint16 in Ha. lia.
Qed.

Lemma distance_report_uint16 st :
  List.length (distances st) = 72%nat -> Forall uint16 (distances st) ->
  exists c,
    send_distance_sensor_message st =
      Ok (st, [Send (distance_sensor 0 10 65 c 0 0 0 0)]) /\ uint16 c.
Proof.
  intros Hl Hu. pose proof (length_centre _ Hl) as Hc.
  assert (Hcu : Forall uint16 (centre (distances st))).
  { unfold centre, slice. apply Forall_firstn, Forall_skipn, Hu. }
  pose proof (sum_Z_uint16 _ Hcu) as Hs. rewrite Hc in Hs.
  exists (Z.quot (sum_Z (centre (distances st))) 5). split.
  - unfold send_distance_sensor_message, int_mean. fold (centre (distances st)).
    destruct (centre (distances st)) as [| a l] eqn:E; [discriminate |].
    rewrite Hc. reflexivity.
  - unfold uint16. rewrite Z.quot_div_nonneg by lia.
    split; [apply Z.div_pos; lia | apply Z.div_lt_upper_bound; lia].
Qed.

(** X12: in every state the running system can reach, every entry of the
    distance array is an unsigned 16-bit value, and the distance report
    never fails: it sends exactly one message, whose current distance fits
    the 16-bit field. *)
Theorem distance_report_always_sent (cfg : config) (mnt : mount) (Qm : Qmat)
    (nf : Z) (st : state) :
  reachable cfg mnt Qm nf st ->
  Forall uint16 (distances st) /\
  exists c,
    send_distance_sensor_message st =
      Ok (st, [Send (distance_sensor 0 10 65 c 0 0 0 0)]) /\ uint16 c.
Proof.
  intros Hr.
  assert (Hinv : List.length (distances st) = 72%nat /\ Forall uint16 (distances st)).
  { induction Hr as [| ev st st' out Hr IH Hs].
    - split; [reflexivity |]. cbn [initial_state distances].
      apply Forall_forall. intros x Hx. apply repeat_spec in Hx. subst x.
      unfold uint16. lia.
    - destruct IH as [IHl IHu]. split.
      + rewrite (step_length _ _ _ _ _ _ _ _ Hs). exact IHl.
      + destruct (step_footprint _ _ _ _ _ _ _ _ Hs) as ([E | (now & pose & raw & _ & E)] & _).
        * rewrite E. exact IHu.
        * unfold estimate in E.
          destruct (reprojectImageTo3D (crop_valid (to_pixel_disparity raw)) Qm)
            as [points_3D |]; [| discriminate E].
          apply (Forall_sample_distances _ _ _ _ _ IHu E). }
  destruct Hinv as [Hl Hu]. split; [exact Hu |].
  apply distance_report_uint16; assumption.
Qed.

Lemma distance_report_always_sent_witness :
  let cfg := source_config true None in
  let d := still_pose 3 in
  let raw := raw_uniform 320 in
  let st1 := set_scale_factor 2 (initial_state cfg) in
  let st2 := set_distances (map (sampled_entry 0 Qm_T265 raw) (seq 0 72))
               (set_pose 5 d (uncorrected_pose forward_mount d (scale_factor st1)) st1) in
  run cfg forward_mount Qm_T265 0
      [Attitude 1; Operator_line (Some 2); Frames 5 (Some d) raw]
      (initial_state cfg) = Ok (st2, [Log_new_scale 2]) /\
  reachable cfg forward_mount Qm_T265 0 st2 /\
  Forall uint16 (distances st2) /\
  exists c,
    send_distance_sensor_message st2 =
      Ok (st2, [Send (distance_sensor 0 10 65 c 0 0 0 0)]) /\ uint16 c.
Proof.
  intros cfg d raw st1 st2.
  destruct (run_sample_events true) as [Er Hr].
  split; [exact Er |]. split; [exact Hr |].
  exact (distance_report_always_sent cfg forward_mount Qm_T265 0 st2 Hr).
Defined.

(** X14: a frame set without a pose sample refreshes the distance array
    and nothing else: the stored sample, pose and time stamp stay, and the
    next pose report is what it would have been before. *)
Theorem frames_without_pose (cfg : config) (mnt : mount) (Qm : Qmat) (nf now : Z)
    (raw : list (list Z)) (st : state) :
  has_shape 300 412 raw = true -> List.length (distances st) = 72%nat ->
  exists st',
    step cfg mnt Qm nf (Frames now None raw) st = Ok (st', []) /\
    data st' = data st /\ H_aeroRef_aeroBody st' = H_aeroRef_aeroBody st /\
    current_time st' = current_time st /\
    distances st' = map (sampled_entry nf Qm raw) (seq 0 72) /\
    forall out, send_vision_position_message st = Ok (st, out) ->
                send_vision_position_message st' = Ok (st', out).
Proof.
  intros Hs Hl.
  exists (set_distances (map (sampled_entry nf Qm raw) (seq 0 72)) st).
  split.
  - cbn [step]. unfold process_frames. cbn [bind].
    rewrite (estimate_profile nf Qm raw _ Hs Hl). reflexivity.
  - repeat (split; [reflexivity |]).
    intros out. unfold send_vision_position_message.
    cbn [set_distances H_aeroRef_aeroBody current_time].
    destruct (H_aeroRef_aeroBody st) as [H |].
    + destruct (euler_from_matrix H) as [[r p] y].
      intros E. injection E as <-. reflexivity.
    + intros E. injection E as <-. reflexivity.
Qed.

Lemma frames_without_pose_witness :
  let cfg := source_config false None in
  let st := initial_state cfg in
  has_shape 300 412 (raw_uniform 320) = true /\ List.length (distances st) = 72%nat /\
  exists st',
    step cfg forward_mount Qm_T265 0 (Frames 5 None (raw_uniform 320)) st = Ok (st', []) /\
    data st' = data st /\ H_aeroRef_aeroBody st' = H_aeroRef_aeroBody st /\
    current_time st' = current_time st /\
    distances st' = map (sampled_entry 0 Qm_T265 (raw_uniform 320)) (seq 0 72) /\
    forall out, send_vision_position_message st = Ok (st, out) ->
                send_vision_position_message st' = Ok (st', out).
Proof.
  intros cfg st.
  assert (H1 : has_shape 300 412 (raw_uniform 320) = true) by (vm_compute; reflexivity).
  assert (H2 : List.length (distances st) = 72%nat) by reflexivity.
  split; [exact H1 |]. split; [exact H2 |].
  exact (frames_without_pose cfg forward_mount Qm_T265 0 5 (raw_uniform 320) st H1 H2).
Defined.

(** X16: the first line that [float] rejects ends the operator thread:
    whatever is typed afterwards, and whatever else happens, the scale
    factor keeps the value it had. *)
Theorem rejected_line_freezes_scale (cfg : config) (mnt : mount) (Qm : Qmat) (nf : Z)
    (st st1 st2 : state) (out1 out2 : list output) (evs : list event) :
  step cfg mnt Qm nf (Operator_line None) st = Ok (st1, out1) ->
  run cfg mnt Qm nf evs st1 = Ok (st2, out2) ->
  scale_factor st2 = scale_factor st.
Proof.
  intros E1 E2.
  assert (H1 : scale_thread_alive st1 = false /\ scale_factor st1 = scale_factor st).
  { cbn [step] in E1. destruct (scale_thread_alive st) eqn:Ea;
      cbn [scale_update] in E1; injection E1 as <- <-; auto. }
  pose (P := fun s => scale_thread_alive s = false /\ scale_factor s = scale_factor st).
  assert (HP : P st2).
  { apply (run_invariant cfg mnt Qm nf P) with (evs := evs) (st := st1) (out := out2);
      [| exact H1 | exact E2].
    intros ev s s' o [Ha Hs] Es. split.
    - destruct (step_footprint _ _ _ _ _ _ _ _ Es) as (_ & _ & Hd). apply Hd, Ha.
    - rewrite (step_scale_factor _ _ _ _ _ _ _ _ Es), Ha.
      destruct ev as [| | | ? | [? |] | ? ? ?]; exact Hs. }
  apply HP.
Qed.

Lemma rejected_line_freezes_scale_witness :
  let cfg := source_config true None in
  let st := set_scale_factor 2 (initial_state cfg) in
  let st1 := set_scale_thread_alive false st in
  step cfg forward_mount Qm_T265 0 (Operator_line None) st = Ok (st1, []) /\
  run cfg forward_mount Qm_T265 0 [Operator_line (Some 5); Distance_tick] st1 =
    Ok (st1, [Send (distance_sensor 0 10 65 0 0 0 0 0)]) /\
  scale_factor st1 = scale_factor st.
Proof.
  intros cfg st st1.
  assert (H1 : step cfg forward_mount Qm_T265 0 (Operator_line None) st = Ok (st1, []))
    by reflexivity.
  assert (H2 : run cfg forward_mount Qm_T265 0 [Operator_line (Some 5); Distance_tick] st1 =
               Ok (st1, [Send (distance_sensor 0 10 65 0 0 0 0 0)])) by reflexivity.
  split; [exact H1 |]. split; [exact H2 |].
  exact (rejected_line_freezes_scale cfg forward_mount Qm_T265 0 st st1 st1 _ _ _ H1 H2).
Defined.

(** X17: features that are switched off are inert: without scale
    calibration the scale factor is 1 in every reachable state, and without
    the compass no heading is ever stored, whatever ATTITUDE messages and
    operator lines arrive. *)
Theorem disabled_features_inert (cfg : config) (mnt : mount) (Qm : Qmat) (nf : Z)
    (st : state) :
  reachable cfg mnt Qm nf st ->
  (scale_calib_enable cfg = false -> scale_factor st = 1) /\
  (compass_enabled cfg <> 1%Z -> heading_north_yaw st = None).
Proof.
  intros Hr. split.
  - intros Hc.
    assert (Hinv : scale_thread_alive st = false /\ scale_factor st = 1).
    { induction Hr as [| ev st st' out Hr IH Hs].
      - cbn [initial_state scale_thread_alive scale_factor]. auto.
      - destruct IH as [Ha Hsc]. split.
        + destruct (step_footprint _ _ _ _ _ _ _ _ Hs) as (_ & _ & Hd). apply Hd, Ha.
        + rewrite (step_scale_factor _ _ _ _ _ _ _ _ Hs), Ha.
          destruct ev as [| | | ? | [? |] | ? ? ?]; exact Hsc. }
    apply Hinv.
  - intros Hc. induction Hr as [| ev st st' out Hr IH Hs]; [reflexivity |].
    destruct (step_footprint _ _ _ _ _ _ _ _ Hs) as (_ & [E | [Hc' _]] & _).
    + rewrite E. exact IH.
    + contradiction.
Qed.

Lemma disabled_features_inert_witness :
  let cfg := source_config false None in
  let d := still_pose 3 in
  let raw := raw_uniform 320 in
  let st1 := initial_state cfg in
  let st2 := set_distances (map (sampled_entry 0 Qm_T265 raw) (seq 0 72))
               (set_pose 5 d (uncorrected_pose forward_mount d (scale_factor st1)) st1) in
  run cfg forward_mount Qm_T265 0
      [Attitude 1; Operator_line (Some 2); Frames 5 (Some d) raw]
      (initial_state cfg) = Ok (st2, []) /\
  reachable cfg forward_mount Qm_T265 0 st2 /\
  (scale_calib_enable cfg = false -> scale_factor st2 = 1) /\
  (compass_enabled cfg <> 1%Z -> heading_north_yaw st2 = None).
Proof.
  intros cfg d raw st1 st2.
  destruct (run_sample_events false) as [Er Hr].
  split; [exact Er |]. split; [exact Hr |].
  exact (disabled_features_inert cfg forward_mount Qm_T265 0 st2 Hr).
Defined.

End InvariantFacts.


Section StartupFacts.

Lemma vehicle_connect_loop_refused {V : Type} k (rest : list (attempt V)) : forall n,
  vehicle_connect_loop (repeat Refused k ++ rest) n =
  vehicle_connect_loop rest (k + n).
Proof.
  induction k as [| k IH]; intros n; [reflexivity |].
  cbn [repeat app vehicle_connect_loop]. rewrite IH. f_equal. lia.
Qed.

(** X18: the connection loop retries without bound: after any number [k]
    of refused attempts it stops at the first success with that vehicle,
    having printed [k] retry lines and ignoring what would come after; an
    operator interrupt ends the process instead; refusals alone never end
    it. *)
Theorem vehicle_connect_retries {V : Type} (k : nat) (v : V) (rest : list (attempt V)) :
  vehicle_connect_loop (repeat Refused k ++ Connected v :: rest) 0 = Vehicle v k /\
  vehicle_connect_loop (repeat Refused k ++ Interrupted :: rest) 0 = Exited k /\
  vehicle_connect_loop (repeat (@Refused V) k) 0 = Retrying k.
Proof.
  repeat split.
  - rewrite vehicle_connect_loop_refused. cbn. rewrite Nat.add_0_r. reflexivity.
  - rewrite vehicle_connect_loop_refused. cbn. rewrite Nat.add_0_r. reflexivity.
  - rewrite <- (app_nil_r (repeat Refused k)), vehicle_connect_loop_refused.
    cbn. rewrite Nat.add_0_r. reflexivity.
Qed.

Lemma Qeq_bool_false (a b : Q) : ~ (a == b)%Q -> Qeq_bool a b = false.
Proof.
  intros H. destruct (Qeq_bool a b) eqn:E; [| reflexivity].
  apply Qeq_bool_iff in E. contradiction.
Qed.

(** X19: a report frequency that is missing or given as zero is replaced
    by its default, any other value is kept; with a non-zero default the
    scheduler interval [1/hz] is therefore always defined. *)
Theorem report_interval_defined (arg : option Q) (default : Q) :
  ~ (default == 0)%Q ->
  let hz := resolve_hz arg default in
  ~ (hz == 0)%Q /\
  interval_seconds hz = Some (1 / hz)%Q /\
  (arg = None -> hz = default) /\
  (forall q, arg = Some q -> (q == 0)%Q -> hz = default) /\
  (forall q, arg = Some q -> ~ (q == 0)%Q -> hz = q).
Proof.
  intros Hd hz.
  assert (Hz : ~ (hz == 0)%Q).
  { unfold hz, resolve_hz. destruct arg as [q |]; [| exact Hd].
    destruct (Qeq_bool q 0) eqn:E; [exact Hd |].
    intros H. apply Qeq_bool_iff in H. congruence. }
  split; [exact Hz |]. split.
  - unfold interval_seconds. rewrite (Qeq_bool_false _ _ Hz). reflexivity.
  - unfold hz, resolve_hz. split; [intros ->; reflexivity |]. split.
    + intros q -> Hq. apply Qeq_bool_iff in Hq. rewrite Hq. reflexivity.
    + intros q -> Hq. rewrite (Qeq_bool_false _ _ Hq). reflexivity.
Qed.

Lemma report_interval_defined_witness :
  ~ (vision_msg_hz_default == 0)%Q /\
  let hz := resolve_hz (Some 0%Q) vision_msg_hz_default in
  ~ (hz == 0)%Q /\
  interval_seconds hz = Some (1 / hz)%Q /\
  (Some 0%Q = None -> hz = vision_msg_hz_default) /\
  (forall q, Some 0%Q = Some q -> (q == 0)%Q -> hz = vision_msg_hz_default) /\
  (forall q, Some 0%Q = Some q -> ~ (q == 0)%Q -> hz = q).
Proof.
  assert (H : ~ (vision_msg_hz_default == 0)%Q) by (intros E; vm_compute in E; discriminate E).
  split; [exact H |].
  exact (report_interval_defined (Some 0%Q) vision_msg_hz_default H).
Defined.

(** A STATUSTEXT whose text is exactly one of the three EKF-ready
    texts makes the listener send the global origin and then the home
    position, both with the configured latitude, longitude and altitude and
    addressed to the vehicle's own system id; any other text sends
    nothing. *)
Lemma statustext_callback_sends (source_system : Z) (text : string) :
  (In text ekf_ready_texts ->
   statustext_callback source_system text =
   [set_gps_global_origin source_system home_lat home_lon home_alt;
    set_home_position source_system home_lat home_lon home_alt 0 0 0
      [1; 0; 0; 0]%Z 0 0 1]) /\
  (~ In text ekf_ready_texts -> statustext_callback source_system text = []).
Proof.
  unfold statustext_callback, ekf_ready_texts. split.
  - intros [<- | [<- | [<- | []]]]; reflexivity.
  - intros Hn.
    destruct (String.eqb text "GPS Glitch") eqn:E1;
      [apply String.eqb_eq in E1; exfalso; apply Hn; left; auto |].
    destruct (String.eqb text "GPS Glitch cleared") eqn:E2;
      [apply String.eqb_eq in E2; exfalso; apply Hn; right; left; auto |].
    destruct (String.eqb text "EKF2 IMU1 ext nav yaw alignment complete") eqn:E3;
      [apply String.eqb_eq in E3; exfalso; apply Hn; right; right; left; auto |].
    reflexivity.
Qed.

End StartupFacts.

Section ReprojectionFacts.
Local Open Scope Q_scope.

(** X21: with the reprojection matrix of a non-zero baseline [T0], a pixel
    of non-zero disparity [d] reprojects to a finite point at depth
    [- 150 T0 / d] (focal length times baseline over disparity), its
    lateral coordinates being the pixel offsets from (149.5, 149.5) times
    [- T0 / d]; a pixel of zero disparity reprojects to a non-finite
    point. *)
Theorem reprojected_depth (T0 : Q) (Qm : Qmat) (x y : nat) (d : Q) :
  Q_matrix T0 = Some Qm ->
  (~ d == 0 ->
   exists X Y Z,
     reproject_pixel Qm x y d = (Fin X, Fin Y, Fin Z) /\
     Z == - (150 * T0) / d /\
     X == (inject_Z (Z.of_nat x) - (299 # 2)) * (- T0 / d) /\
     Y == (inject_Z (Z.of_nat y) - (299 # 2)) * (- T0 / d)) /\
  (d == 0 -> reproject_pixel Qm x y d = (NonFinite, NonFinite, NonFinite)).
Proof.
  unfold Q_matrix. destruct (Qeq_bool T0 0) eqn:ET; [discriminate |].
  intros E. injection E as <-.
  assert (HT : ~ T0 == 0) by (intros H; apply Qeq_bool_iff in H; congruence).
  unfold reproject_pixel, row_dot, fdiv.
  set (xq := inject_Z (Z.of_nat x)). set (yq := inject_Z (Z.of_nat y)).
  set (W := 0 * xq + 0 * yq + - 1 / T0 * d + 0 * 1).
  assert (HW : W == - d / T0) by (unfold W; field; exact HT).
  split.
  - intros Hd.
    assert (HW0 : ~ W == 0).
    { rewrite HW. intros H. apply Hd.
      assert (H' : - d / T0 * T0 == 0) by (rewrite H; ring).
      assert (H'' : - d / T0 * T0 == - d) by (field; exact HT).
      rewrite H'' in H'. lra. }
    rewrite (Qeq_bool_false _ _ HW0).
    eexists _, _, _. split; [reflexivity |].
    unfold stereo_focal_px, stereo_cx, stereo_cy, stereo_height_px, max_disp,
      min_disp, num_disp.
    repeat split; rewrite HW; field; auto.
  - intros Hd.
    assert (HW0 : W == 0) by (rewrite HW, Hd; field; exact HT).
    apply Qeq_bool_iff in HW0. rewrite HW0. reflexivity.
Qed.

Lemma reprojected_depth_witness :
  Q_matrix T265_baseline = Some Qm_T265 /\
  (~ 20 == 0 ->
   exists X Y Z,
     reproject_pixel Qm_T265 150 0 20 = (Fin X, Fin Y, Fin Z) /\
     Z == - (150 * T265_baseline) / 20 /\
     X == (inject_Z (Z.of_nat 150) - (299 # 2)) * (- T265_baseline / 20) /\
     Y == (inject_Z (Z.of_nat 0) - (299 # 2)) * (- T265_baseline / 20)) /\
  (20 == 0 -> reproject_pixel Qm_T265 150 0 20 = (NonFinite, NonFinite, NonFinite)).
Proof.
  assert (H : Q_matrix T265_baseline = Some Qm_T265) by reflexivity.
  split; [exact H |].
  exact (reprojected_depth T265_baseline Qm_T265 150 0 20 H).
Defined.

End ReprojectionFacts.
